(** * Restaurant-system: the collaborative order session

    A shallow embedding of the order core of the backend:
    - [src/services/qr.service.js]       (QRService)
    - [src/controllers/order.controller.js] (guest and staff HTTP handlers)
    - [src/services/order.service.js]    (OrderService: totals, bill split)
    - [src/socket/kitchenHandlers.js]    (the [update-order-status] event)
    - [src/controllers/table.controller.js] ([getTableByQR],
      [updateTableStatus])

    JavaScript numbers are IEEE 754 binary64 values; they are embedded as
    [spec_float] with precision 53 and the operations of the Standard
    Library's executable specification, so that every total below is the
    value Node computes, bit for bit.  The Sequelize models are embedded as
    records, the database as a record of row lists with its sequences, and
    every handler as a function from the database to a response and the
    database it leaves behind (nothing in the source runs in a
    transaction, so a handler that fails half-way keeps its earlier
    writes). *)

From Stdlib Require Import ZArith List Bool String Ascii Lia PeanoNat.
From Stdlib Require Import DecimalString.
From Stdlib Require DecimalNat.
From Stdlib Require Import QArith.
From Stdlib Require Import Sorting.Sorted.
From Stdlib Require Import Floats.SpecFloat.
Import ListNotations.

Local Open Scope Z_scope.
Local Open Scope string_scope.

(* ===================================================================== *)
(** ** JavaScript numbers *)
(* ===================================================================== *)

Module JSNumber.

Definition prec : Z := 53.
Definition emax : Z := 1024.

(** A JS [Number]. *)
Definition Number : Type := spec_float.

Definition NaN : Number := S754_nan.
Definition zero : Number := S754_zero false.

(** [a + b], [a * b], [a / b] on Numbers. *)
Definition add : Number -> Number -> Number := SFadd prec emax.
Definition mul : Number -> Number -> Number := SFmul prec emax.
Definition div : Number -> Number -> Number := SFdiv prec emax.

(** An integer literal or an integer taken from JSON. *)
Definition of_Z (z : Z) : Number := binary_normalize prec emax z 0 false.


Definition is_finite (x : Number) : bool :=
  match x with
  | S754_zero _ | S754_finite _ _ _ => true
  | _ => false
  end.


(** A DECIMAL(p,2) column holds a number of hundredths; node-postgres
    hands it to JS as the string "u.dd".  [parseFloat] of that string is
    the double nearest to the decimal, which is the correctly rounded
    quotient of the (exactly representable) hundredths by 100. *)
Definition parseFloat (hundredths : Z) : Number :=
  div (of_Z hundredths) (of_Z 100).

(** The result of [x.toFixed(2)]: either a sign and the digits of the
    integer [n] of step 9 of Number.prototype.toFixed ("let n be an
    integer for which n / 10^f - x is as close to zero as possible; if
    there are two such n, pick the larger n"), printed with two
    decimals, or one of the strings "NaN", "Infinity", "-Infinity" or
    an exponent form (x >= 1e21), none of which is a two-decimal
    numeral. *)
Inductive Fixed : Type :=
| Digits (negative : bool) (n : Z)
| NotDecimal.

Definition toFixed2 (x : Number) : Fixed :=
  match x with
  | S754_zero _ => Digits false 0
  | S754_finite s m e =>
      if (0 <=? e)%Z then
        if (10 ^ 21 <=? Zpos m * 2 ^ e)%Z then NotDecimal
        else Digits s (100 * (Zpos m * 2 ^ e))
      else Digits s ((200 * Zpos m + 2 ^ (- e)) / 2 ^ (1 - e))
  | _ => NotDecimal
  end.

(** Writing the string of [toFixed(2)] into a DECIMAL(10,2) column: the
    column takes at most eight digits before the point; the write is
    rejected otherwise, and (in this model) for the non-numerals. *)
Definition decimal_10_2_max : Z := 10 ^ 10.

Definition to_DECIMAL_10_2 (f : Fixed) : option Z :=
  match f with
  | Digits s n =>
      if (n <? decimal_10_2_max)%Z then Some (if s then - n else n)
      else None
  | NotDecimal => None
  end.

(** [parseFloat(x.toFixed(2))]. *)
Definition parseFloat_fixed (f : Fixed) : Number :=
  match f with
  | Digits s n => parseFloat (if s then - n else n)
  | NotDecimal => NaN
  end.

End JSNumber.

Import JSNumber.

(* ===================================================================== *)
(** ** Strings built by template literals *)
(* ===================================================================== *)

(** [`${n}`] and [n.toString()] for a non-negative integer. *)
Definition string_of_nat (n : nat) : string :=
  NilZero.string_of_uint (Nat.to_uint n).

Fixpoint repeat_zero (k : nat) : string :=
  match k with
  | O => EmptyString
  | S k' => String "0"%char (repeat_zero k')
  end.

(** [s.padStart(w, '0')]. *)
Definition padStart0 (w : nat) (s : string) : string :=
  (repeat_zero (w - String.length s) ++ s)%string.

(** [list.includes(s)] on strings. *)
Definition includes (l : list string) (s : string) : bool :=
  existsb (String.eqb s) l.

(* ===================================================================== *)
(** ** The Sequelize models *)
(* ===================================================================== *)

(** [Order.status]: ENUM('pending', ..., 'cancelled'). *)
Inductive OrderStatus : Type :=
| pending | confirmed | preparing | ready | served | completed | cancelled.

(** [Table.status]: ENUM('available', 'occupied', 'reserved', 'maintenance'). *)
Inductive TableStatus : Type :=
| available | occupied | reserved | maintenance.

Definition OrderStatus_eqb (a b : OrderStatus) : bool :=
  match a, b with
  | pending, pending | confirmed, confirmed | preparing, preparing
  | ready, ready | served, served | completed, completed
  | cancelled, cancelled => true
  | _, _ => false
  end.

Definition TableStatus_eqb (a b : TableStatus) : bool :=
  match a, b with
  | available, available | occupied, occupied
  | reserved, reserved | maintenance, maintenance => true
  | _, _ => false
  end.

(** The enum label of a status, as it travels in requests and events. *)
Definition status_name (s : OrderStatus) : string :=
  match s with
  | pending => "pending"
  | confirmed => "confirmed"
  | preparing => "preparing"
  | ready => "ready"
  | served => "served"
  | completed => "completed"
  | cancelled => "cancelled"
  end.

Definition all_statuses : list OrderStatus :=
  [pending; confirmed; preparing; ready; served; completed; cancelled].

(** The enum value a label denotes, if any. *)
Definition status_of_string (s : string) : option OrderStatus :=
  find (fun st => String.eqb s (status_name st)) all_statuses.


Module Restaurant.
Record t : Type := mk {
  restaurant_id : nat;
  name : string;
  is_active : bool;
  tax_rate : Z;              (* DECIMAL(5,2), in hundredths of a percent *)
  service_charge_rate : Z    (* DECIMAL(5,2), in hundredths of a percent *)
}.
End Restaurant.

Module Table.
Record t : Type := mk {
  table_id : nat;
  restaurant_id : nat;
  table_number : string;
  qr_code : string;
  status : TableStatus
}.
Definition set_status (s : TableStatus) (x : t) : t :=
  mk (table_id x) (restaurant_id x) (table_number x) (qr_code x) s.
End Table.

Module MenuItem.
Record t : Type := mk {
  menu_item_id : nat;
  name : string;
  price : Z;                 (* DECIMAL(10,2), in hundredths *)
  is_available : bool
}.
End MenuItem.

Module Order.
Record t : Type := mk {
  order_id : nat;
  restaurant_id : nat;
  table_id : nat;
  order_number : string;
  status : OrderStatus;
  subtotal : Z;              (* the money columns: DECIMAL(10,2), hundredths *)
  tax_amount : Z;
  service_charge : Z;
  discount_amount : Z;
  total_amount : Z;
  special_instructions : option string;
  created_at : Z
}.
Definition set_status (s : OrderStatus) (o : t) : t :=
  mk (order_id o) (restaurant_id o) (table_id o) (order_number o) s
     (subtotal o) (tax_amount o) (service_charge o) (discount_amount o)
     (total_amount o) (special_instructions o) (created_at o).
Definition set_special_instructions (i : option string) (o : t) : t :=
  mk (order_id o) (restaurant_id o) (table_id o) (order_number o) (status o)
     (subtotal o) (tax_amount o) (service_charge o) (discount_amount o)
     (total_amount o) i (created_at o).
(** [order.update({ subtotal, tax_amount, service_charge, total_amount })] *)
Definition set_totals (sub tax svc tot : Z) (o : t) : t :=
  mk (order_id o) (restaurant_id o) (table_id o) (order_number o) (status o)
     sub tax svc (discount_amount o) tot
     (special_instructions o) (created_at o).
End Order.

Module OrderGuest.
Record t : Type := mk {
  guest_id : nat;
  order_id : nat;
  guest_name : string;
  session_token : string;
  device_info : option string
}.
End OrderGuest.

Module OrderItem.
Record t : Type := mk {
  order_item_id : nat;
  order_id : nat;
  menu_item_id : nat;
  added_by_guest_id : nat;
  quantity : Z;
  unit_price : Z;            (* DECIMAL(10,2), hundredths: the price snapshot *)
  subtotal : Z;              (* DECIMAL(10,2), hundredths *)
  special_instructions : option string
}.
Definition set_quantity_subtotal (q sub : Z) (i : t) : t :=
  mk (order_item_id i) (order_id i) (menu_item_id i) (added_by_guest_id i)
     q (unit_price i) sub (special_instructions i).
End OrderItem.

(** One [io.to(room).emit(event, ...)] or [socket.emit(event, ...)]. *)
Record Emit : Type := mkEmit { room : string; event : string }.

(** The database (one row list per table, in insertion order, and the
    sequences behind the auto-increment keys) together with the events
    emitted so far. *)
Record World : Type := mkWorld {
  restaurants : list Restaurant.t;
  tables : list Table.t;
  menu_items : list MenuItem.t;
  orders : list Order.t;
  order_guests : list OrderGuest.t;
  order_items : list OrderItem.t;
  qr_scans : nat;
  orders_seq : nat;
  order_guests_seq : nat;
  order_items_seq : nat;
  emitted : list Emit
}.

Definition with_tables (f : list Table.t -> list Table.t) (w : World) : World :=
  mkWorld (restaurants w) (f (tables w)) (menu_items w) (orders w)
          (order_guests w) (order_items w) (qr_scans w) (orders_seq w)
          (order_guests_seq w) (order_items_seq w) (emitted w).

Definition with_orders (f : list Order.t -> list Order.t) (w : World) : World :=
  mkWorld (restaurants w) (tables w) (menu_items w) (f (orders w))
          (order_guests w) (order_items w) (qr_scans w) (orders_seq w)
          (order_guests_seq w) (order_items_seq w) (emitted w).

Definition with_order_items (f : list OrderItem.t -> list OrderItem.t)
    (w : World) : World :=
  mkWorld (restaurants w) (tables w) (menu_items w) (orders w)
          (order_guests w) (f (order_items w)) (qr_scans w) (orders_seq w)
          (order_guests_seq w) (order_items_seq w) (emitted w).

Definition with_emitted (f : list Emit -> list Emit) (w : World) : World :=
  mkWorld (restaurants w) (tables w) (menu_items w) (orders w)
          (order_guests w) (order_items w) (qr_scans w) (orders_seq w)
          (order_guests_seq w) (order_items_seq w) (f (emitted w)).

(** What [new Date()] gives a request: the instant, the UTC date string
    of [toISOString().slice(0, 10).replace(/-/g, '')], and the bounds of the
    local day of [setHours(0,0,0,0)] and [setHours(23,59,59,999)]. *)
Record Clock : Type := mkClock {
  now : Z;
  dateStr : string;
  startOfDay : Z;
  endOfDay : Z
}.

(* ===================================================================== *)
(** ** Errors and the handler monad *)
(* ===================================================================== *)

(** [AppError(message, statusCode)] handed to [next], or any other
    exception (a Sequelize error, a TypeError), which the error middleware
    answers with status 500. *)
Inductive Exn : Type :=
| AppError (message : string) (statusCode : nat)
| Thrown (message : string).

Module ErrorTypes.
Definition BadRequest (message : string) : Exn := AppError message 400.
Definition Forbidden (message : string) : Exn := AppError message 403.
Definition NotFound (resource : string) : Exn :=
  AppError (resource ++ " not found.") 404.
Definition MenuItemUnavailable (itemName : string) : Exn :=
  AppError (itemName ++ " is currently unavailable.") 400.
Definition InvalidOrderStatus : Exn :=
  AppError "Cannot perform this action on order with current status." 400.
End ErrorTypes.

Inductive Result (A : Type) : Type :=
| Return (a : A)
| Raise (e : Exn).
Arguments Return {A} a.
Arguments Raise {A} e.

(** A handler reads and writes the world; what it wrote before it failed
    stays written. *)
Definition M (A : Type) : Type := World -> Result A * World.

Definition ret {A} (a : A) : M A := fun w => (Return a, w).
Definition raise {A} (e : Exn) : M A := fun w => (Raise e, w).
Definition bind {A B} (m : M A) (k : A -> M B) : M B :=
  fun w => match m w with
           | (Return a, w') => k a w'
           | (Raise e, w') => (Raise e, w')
           end.
Definition gets {A} (f : World -> A) : M A := fun w => (Return (f w), w).
Definition modify (f : World -> World) : M unit := fun w => (Return tt, f w).

Declare Scope handler_scope.
Delimit Scope handler_scope with handler.
Notation "x <- m ;; k" := (bind m (fun x => k))
  (at level 61, m at next level, right associativity) : handler_scope.
Notation "m ;;; k" := (bind m (fun _ => k))
  (at level 61, right associativity) : handler_scope.
Local Open Scope handler_scope.

(** [try { body } catch (error) { }]: the exception is swallowed. *)
Definition try_ignore (m : M unit) : M unit :=
  fun w => match m w with
           | (Return _, w') => (Return tt, w')
           | (Raise _, w') => (Return tt, w')
           end.

(** [io.to(room).emit(event, payload)] *)
Definition emit (r e : string) : M unit :=
  modify (with_emitted (fun l => (l ++ [mkEmit r e])%list)).

(* ===================================================================== *)
(** ** Sequelize queries used by the services *)
(* ===================================================================== *)

(** The row a query with [order: [['created_at', 'DESC']]] returns first. *)
Fixpoint most_recent (l : list Order.t) : option Order.t :=
  match l with
  | [] => None
  | o :: rest =>
      match most_recent rest with
      | Some o' => if (Order.created_at o <? Order.created_at o')%Z
                   then Some o' else Some o
      | None => Some o
      end
  end.

Definition findTableByQR (qr : string) (w : World) : option Table.t :=
  find (fun t => String.eqb (Table.qr_code t) qr) (tables w).

Definition findTableByPk (id : nat) (w : World) : option Table.t :=
  find (fun t => Nat.eqb (Table.table_id t) id) (tables w).

Definition findRestaurantByPk (id : nat) (w : World) : option Restaurant.t :=
  find (fun r => Nat.eqb (Restaurant.restaurant_id r) id) (restaurants w).

Definition findOrderByPk (id : nat) (w : World) : option Order.t :=
  find (fun o => Nat.eqb (Order.order_id o) id) (orders w).

Definition findMenuItemByPk (id : nat) (w : World) : option MenuItem.t :=
  find (fun m => Nat.eqb (MenuItem.menu_item_id m) id) (menu_items w).

Definition findOrderItemByPk (id : nat) (w : World) : option OrderItem.t :=
  find (fun i => Nat.eqb (OrderItem.order_item_id i) id) (order_items w).

Definition findGuestByToken (tok : string) (w : World) : option OrderGuest.t :=
  find (fun g => String.eqb (OrderGuest.session_token g) tok) (order_guests w).

(** The rows of [include: [{ model: OrderItem, as: 'items' }]]. *)
Definition items_of (orderId : nat) (w : World) : list OrderItem.t :=
  filter (fun i => Nat.eqb (OrderItem.order_id i) orderId) (order_items w).

(** [Table.update({ status }, { where: { table_id } })] *)
Definition Table_update_status (s : TableStatus) (tableId : nat) : M unit :=
  modify (with_tables
            (map (fun t => if Nat.eqb (Table.table_id t) tableId
                           then Table.set_status s t else t))).

(** [order.update(...)], [orderItem.update(...)]: the row with the
    instance's key is rewritten. *)
Definition Order_save (o : Order.t) : M unit :=
  modify (with_orders
            (map (fun x => if Nat.eqb (Order.order_id x) (Order.order_id o)
                           then o else x))).

Definition OrderItem_save (i : OrderItem.t) : M unit :=
  modify (with_order_items
            (map (fun x => if Nat.eqb (OrderItem.order_item_id x)
                                      (OrderItem.order_item_id i)
                           then i else x))).

(** [orderItem.destroy()] *)
Definition OrderItem_destroy (i : OrderItem.t) : M unit :=
  modify (with_order_items
            (filter (fun x => negb (Nat.eqb (OrderItem.order_item_id x)
                                            (OrderItem.order_item_id i))))).

(** [Order.create({...})]: the key comes from the sequence (which advances
    even when the insert is refused), [order_number] is UNIQUE,
    [discount_amount] takes its default 0.00 and [created_at] is NOW. *)
Definition Order_create (clk : Clock) (restaurantId tableId : nat)
    (orderNumber : string) : M Order.t :=
  fun w =>
    let id := S (orders_seq w) in
    let w1 := mkWorld (restaurants w) (tables w) (menu_items w) (orders w)
                (order_guests w) (order_items w) (qr_scans w) id
                (order_guests_seq w) (order_items_seq w) (emitted w) in
    if existsb (fun o => String.eqb (Order.order_number o) orderNumber) (orders w)
    then (Raise (Thrown "SequelizeUniqueConstraintError: order_number"), w1)
    else
      let o := Order.mk id restaurantId tableId orderNumber pending
                 0 0 0 0 0 None (now clk) in
      (Return o, with_orders (fun l => (l ++ [o])%list) w1).

(** [OrderGuest.create({...})]: [session_token] is UNIQUE and so is the
    pair (order_id, guest_name). *)
Definition OrderGuest_create (orderId : nat) (guestName sessionToken : string)
    (deviceInfo : option string) : M OrderGuest.t :=
  fun w =>
    let id := S (order_guests_seq w) in
    let w1 := mkWorld (restaurants w) (tables w) (menu_items w) (orders w)
                (order_guests w) (order_items w) (qr_scans w) (orders_seq w)
                id (order_items_seq w) (emitted w) in
    if existsb (fun g => String.eqb (OrderGuest.session_token g) sessionToken
                         || (Nat.eqb (OrderGuest.order_id g) orderId
                             && String.eqb (OrderGuest.guest_name g) guestName))
               (order_guests w)
    then (Raise (Thrown "SequelizeUniqueConstraintError: order_guests"), w1)
    else
      let g := OrderGuest.mk id orderId guestName sessionToken deviceInfo in
      (Return g,
       mkWorld (restaurants w1) (tables w1) (menu_items w1) (orders w1)
         (order_guests w1 ++ [g])%list (order_items w1) (qr_scans w1)
         (orders_seq w1) (order_guests_seq w1) (order_items_seq w1)
         (emitted w1)).

(** The [beforeValidate] hook of OrderItem:
    [if (quantity && unit_price) subtotal =
       (parseFloat(quantity) * parseFloat(unit_price)).toFixed(2)],
    followed by the write into the DECIMAL(10,2) column.  When the hook
    does not fire the factor that is falsy is 0 and the product the
    controller computed is written, which the column rounds the same way. *)
Definition OrderItem_subtotal (quantity : Z) (unit_price : Number) : option Z :=
  to_DECIMAL_10_2 (toFixed2 (mul (of_Z quantity) unit_price)).

(** [OrderItem.create({...})] *)
Definition OrderItem_create (orderId menuItemId guestId : nat) (quantity : Z)
    (unitPrice : Number) (specialInstructions : option string)
    : M OrderItem.t :=
  fun w =>
    let id := S (order_items_seq w) in
    let w1 := mkWorld (restaurants w) (tables w) (menu_items w) (orders w)
                (order_guests w) (order_items w) (qr_scans w) (orders_seq w)
                (order_guests_seq w) id (emitted w) in
    match to_DECIMAL_10_2 (toFixed2 unitPrice),
          OrderItem_subtotal quantity unitPrice with
    | Some up, Some sub =>
        let i := OrderItem.mk id orderId menuItemId guestId quantity up sub
                   specialInstructions in
        (Return i, with_order_items (fun l => (l ++ [i])%list) w1)
    | _, _ => (Raise (Thrown "SequelizeDatabaseError: numeric field overflow"), w1)
    end.

(* ===================================================================== *)
(** ** src/services/qr.service.js *)
(* ===================================================================== *)

(** The [{ success: true, ... }] or [{ success: false, error }] objects the
    service methods return. *)
Inductive Outcome (A : Type) : Type :=
| Success (a : A)
| Failure (error : string).
Arguments Success {A} a.
Arguments Failure {A} error.

Module QRService.

Record QRValidation : Type := mkQRValidation {
  tableId : nat;
  tableNumber : string;
  tableStatus : TableStatus;
  restaurantId : nat;
  restaurantName : string
}.

Definition validateQRCode (qrToken : string) : M (Outcome QRValidation) :=
  table <- gets (findTableByQR qrToken) ;;
  match table with
  | None => ret (Failure "Invalid QR code")
  | Some table =>
      restaurant <- gets (findRestaurantByPk (Table.restaurant_id table)) ;;
      match restaurant with
      | None => raise (Thrown "TypeError: table.restaurant is null")
      | Some restaurant =>
          if negb (Restaurant.is_active restaurant) then
            ret (Failure "Restaurant is currently inactive")
          else if TableStatus_eqb (Table.status table) maintenance then
            ret (Failure "Table is under maintenance")
          else
            ret (Success (mkQRValidation
                            (Table.table_id table) (Table.table_number table)
                            (Table.status table)
                            (Restaurant.restaurant_id restaurant)
                            (Restaurant.name restaurant)))
      end
  end.

(** The statuses of the [where] clause of [getOrCreateTableSession]:
    [status: ['pending', 'confirmed', 'preparing'] // Active statuses]. *)
Definition sessionStatuses : list string :=
  ["pending"; "confirmed"; "preparing"].

(** [Order.findOne({ where: { table_id, restaurant_id, status: [...] },
                    order: [['created_at', 'DESC']] })] *)
Definition findActiveOrder (tableId restaurantId : nat) (w : World)
    : option Order.t :=
  most_recent
    (filter (fun o => Nat.eqb (Order.table_id o) tableId
                      && Nat.eqb (Order.restaurant_id o) restaurantId
                      && includes sessionStatuses (status_name (Order.status o)))
            (orders w)).

(** [Order.count({ where: { restaurant_id,
                            created_at: { $gte: startOfDay, $lte: endOfDay } } })] *)
Definition countOrdersToday (clk : Clock) (restaurantId : nat) (w : World)
    : nat :=
  List.length
    (filter (fun o => Nat.eqb (Order.restaurant_id o) restaurantId
                      && (startOfDay clk <=? Order.created_at o)%Z
                      && (Order.created_at o <=? endOfDay clk)%Z)
            (orders w)).

(** [`ORD-${dateStr}-${restaurantId}-${sequence}`] *)
Definition formatOrderNumber (clk : Clock) (restaurantId todayOrderCount : nat)
    : string :=
  let sequence := padStart0 3 (string_of_nat (todayOrderCount + 1)) in
  "ORD-" ++ dateStr clk ++ "-" ++ string_of_nat restaurantId ++ "-" ++ sequence.

Definition generateOrderNumber (clk : Clock) (restaurantId : nat) : M string :=
  todayOrderCount <- gets (countOrdersToday clk restaurantId) ;;
  ret (formatOrderNumber clk restaurantId todayOrderCount).

Record TableSession : Type := mkTableSession {
  orderId : nat;
  orderNumber : string;
  status : OrderStatus;
  isNewSession : bool
}.

Definition sessionOf (activeOrder : Order.t) : TableSession :=
  mkTableSession (Order.order_id activeOrder) (Order.order_number activeOrder)
                 (Order.status activeOrder)
                 (Nat.eqb (Order.order_id activeOrder) 0).

Definition getOrCreateTableSession (clk : Clock) (tableId restaurantId : nat)
    : M TableSession :=
  found <- gets (findActiveOrder tableId restaurantId) ;;
  activeOrder <-
    match found with
    | Some o => ret o
    | None =>
        orderNumber <- generateOrderNumber clk restaurantId ;;
        o <- Order_create clk restaurantId tableId orderNumber ;;
        Table_update_status occupied tableId ;;;
        ret o
    end ;;
  ret (sessionOf activeOrder).

Record GuestSession : Type := mkGuestSession {
  guestId : nat;
  guestName : string;
  sessionToken : string
}.

(** [!guestName] *)
Definition noName (guestName : option string) : bool :=
  match guestName with
  | None => true
  | Some s => String.eqb s ""
  end.

(** [randomHex] stands for [crypto.randomBytes(32).toString('hex')]. *)
Definition createGuestSession (randomHex : string) (orderId : nat)
    (guestName deviceInfo : option string) : M GuestSession :=
  name <-
    (if noName guestName then
       guestCount <- gets (fun w =>
         List.length (filter (fun g => Nat.eqb (OrderGuest.order_id g) orderId)
                             (order_guests w))) ;;
       ret ("Guest " ++ string_of_nat (guestCount + 1))
     else ret (match guestName with Some s => s | None => "" end)) ;;
  guest <- OrderGuest_create orderId name randomHex deviceInfo ;;
  ret (mkGuestSession (OrderGuest.guest_id guest) (OrderGuest.guest_name guest)
                      (OrderGuest.session_token guest)).

(** The statuses of [validateGuestSession]:
    [const activeStatuses = ['pending', 'confirmed', 'preparing', 'ready']]. *)
Definition activeStatuses : list string :=
  ["pending"; "confirmed"; "preparing"; "ready"].

Record GuestValidation : Type := mkGuestValidation {
  v_guestId : nat;
  v_guestName : string;
  v_orderId : nat;           (* guest.order_id *)
  v_orderNumber : string;
  v_status : OrderStatus;
  v_tableNumber : string
}.

Definition validateGuestSession (sessionToken : string)
    : M (Outcome GuestValidation) :=
  guest <- gets (findGuestByToken sessionToken) ;;
  match guest with
  | None => ret (Failure "Invalid session token")
  | Some guest =>
      order <- gets (findOrderByPk (OrderGuest.order_id guest)) ;;
      match order with
      | None => raise (Thrown "TypeError: guest.order is null")
      | Some order =>
          if negb (includes activeStatuses (status_name (Order.status order)))
          then ret (Failure "Order session has ended")
          else
            table <- gets (findTableByPk (Order.table_id order)) ;;
            match table with
            | None => raise (Thrown "TypeError: guest.order.table is null")
            | Some table =>
                ret (Success (mkGuestValidation
                                (OrderGuest.guest_id guest)
                                (OrderGuest.guest_name guest)
                                (OrderGuest.order_id guest)
                                (Order.order_number order)
                                (Order.status order)
                                (Table.table_number table)))
            end
      end
  end.

(** [QRScan.create] inside a [try] whose [catch] only logs. *)
Definition trackQRScan (tableId : nat) : M unit :=
  try_ignore
    (modify (fun w =>
       mkWorld (restaurants w) (tables w) (menu_items w) (orders w)
         (order_guests w) (order_items w) (S (qr_scans w)) (orders_seq w)
         (order_guests_seq w) (order_items_seq w) (emitted w))).

Record ScanResult : Type := mkScanResult {
  scan_table : QRValidation;
  scan_order : TableSession;
  scan_guest : GuestSession
}.

Definition handleQRScan (clk : Clock) (randomHex qrToken : string)
    (guestName deviceInfo : option string) : M (Outcome ScanResult) :=
  qrValidation <- validateQRCode qrToken ;;
  match qrValidation with
  | Failure e => ret (Failure e)
  | Success v =>
      session <- getOrCreateTableSession clk (tableId v) (restaurantId v) ;;
      guestSession <- createGuestSession randomHex (orderId session)
                        guestName deviceInfo ;;
      trackQRScan (tableId v) ;;;
      ret (Success (mkScanResult v session guestSession))
  end.

End QRService.

(* ===================================================================== *)
(** ** src/controllers/order.controller.js *)
(* ===================================================================== *)

Module OrderController.

(** [items.reduce((sum, item) => sum + parseFloat(item.subtotal), 0)] *)
Definition sumSubtotals (items : list OrderItem.t) : Number :=
  fold_left (fun sum item => add sum (parseFloat (OrderItem.subtotal item)))
            items zero.

(** The four amounts of [recalculateOrderTotals] before they are
    formatted: [subtotal], [taxAmount], [serviceCharge], [totalAmount]. *)
Record Amounts : Type := mkAmounts {
  subtotal : Number;
  taxAmount : Number;
  serviceCharge : Number;
  totalAmount : Number
}.

Definition computeAmounts (items : list OrderItem.t) (r : Restaurant.t)
    : Amounts :=
  let subtotal := sumSubtotals items in
  let taxRate := div (parseFloat (Restaurant.tax_rate r)) (of_Z 100) in
  let serviceChargeRate :=
    div (parseFloat (Restaurant.service_charge_rate r)) (of_Z 100) in
  let taxAmount := mul subtotal taxRate in
  let serviceCharge := mul subtotal serviceChargeRate in
  let totalAmount := add (add subtotal taxAmount) serviceCharge in
  mkAmounts subtotal taxAmount serviceCharge totalAmount.

(** [order.update({ subtotal: subtotal.toFixed(2), ... })] *)
Definition storeAmounts (a : Amounts) (order : Order.t) : option Order.t :=
  match to_DECIMAL_10_2 (toFixed2 (subtotal a)),
        to_DECIMAL_10_2 (toFixed2 (taxAmount a)),
        to_DECIMAL_10_2 (toFixed2 (serviceCharge a)),
        to_DECIMAL_10_2 (toFixed2 (totalAmount a)) with
  | Some sub, Some tax, Some svc, Some tot =>
      Some (Order.set_totals sub tax svc tot order)
  | _, _, _, _ => None
  end.

(** Helper function to recalculate order totals. *)
Definition recalculateOrderTotals (orderId : nat) : M unit :=
  order <- gets (findOrderByPk orderId) ;;
  match order with
  | None => ret tt
  | Some order =>
      items <- gets (items_of orderId) ;;
      restaurant <- gets (findRestaurantByPk (Order.restaurant_id order)) ;;
      match restaurant with
      | None => raise (Thrown "TypeError: order.restaurant is null")
      | Some restaurant =>
          match storeAmounts (computeAmounts items restaurant) order with
          | Some order' => Order_save order'
          | None => raise (Thrown "SequelizeDatabaseError: numeric value")
          end
      end
  end.

(** The 401 of a refused session. *)
Definition withSession (sessionToken : string)
    : M QRService.GuestValidation :=
  validation <- QRService.validateGuestSession sessionToken ;;
  match validation with
  | Failure e => raise (AppError e 401)
  | Success v => ret v
  end.

Definition orderRoom (orderId : nat) : string :=
  "order-" ++ string_of_nat orderId.

Definition kitchenRoom (restaurantId : nat) : string :=
  "restaurant-" ++ string_of_nat restaurantId ++ "-kitchen".

(** POST /api/orders/items,
    body [{ sessionToken, menuItemId, quantity, specialInstructions? }]. *)
Definition addItemToOrder (sessionToken : string) (menuItemId : nat)
    (quantity : Z) (specialInstructions : option string)
    : M (option OrderItem.t) :=
  if String.eqb sessionToken "" || Nat.eqb menuItemId 0 || (quantity =? 0)%Z
  then raise (ErrorTypes.BadRequest
                "Session token, menu item ID, and quantity are required")
  else if (quantity <? 1)%Z
  then raise (ErrorTypes.BadRequest "Quantity must be at least 1")
  else
    validation <- withSession sessionToken ;;
    menuItem <- gets (findMenuItemByPk menuItemId) ;;
    match menuItem with
    | None => raise (ErrorTypes.NotFound "Menu item")
    | Some menuItem =>
        if negb (MenuItem.is_available menuItem)
        then raise (ErrorTypes.MenuItemUnavailable (MenuItem.name menuItem))
        else
          let unitPrice := parseFloat (MenuItem.price menuItem) in
          orderItem <- OrderItem_create (QRService.v_orderId validation)
                         menuItemId (QRService.v_guestId validation)
                         quantity unitPrice specialInstructions ;;
          recalculateOrderTotals (QRService.v_orderId validation) ;;;
          createdItem <- gets (findOrderItemByPk
                                 (OrderItem.order_item_id orderItem)) ;;
          emit (orderRoom (QRService.v_orderId validation)) "item-added" ;;;
          ret createdItem
    end.

(** PATCH /api/orders/items/:itemId, body [{ sessionToken, quantity }]. *)
Definition updateOrderItem (itemId : nat) (sessionToken : string)
    (quantity : Z) : M OrderItem.t :=
  if String.eqb sessionToken "" || (quantity =? 0)%Z
  then raise (ErrorTypes.BadRequest "Session token and quantity are required")
  else if (quantity <? 1)%Z
  then raise (ErrorTypes.BadRequest "Quantity must be at least 1")
  else
    validation <- withSession sessionToken ;;
    orderItem <- gets (findOrderItemByPk itemId) ;;
    match orderItem with
    | None => raise (ErrorTypes.NotFound "Order item")
    | Some orderItem =>
        if negb (Nat.eqb (OrderItem.order_id orderItem)
                         (QRService.v_orderId validation))
        then raise (ErrorTypes.Forbidden
                      "This item does not belong to your order")
        else
          match OrderItem_subtotal quantity
                  (parseFloat (OrderItem.unit_price orderItem)) with
          | None =>
              raise (Thrown "SequelizeDatabaseError: numeric field overflow")
          | Some newSubtotal =>
              let updated :=
                OrderItem.set_quantity_subtotal quantity newSubtotal orderItem in
              OrderItem_save updated ;;;
              recalculateOrderTotals (QRService.v_orderId validation) ;;;
              emit (orderRoom (QRService.v_orderId validation))
                   "item-updated" ;;;
              ret updated
          end
    end.

(** DELETE /api/orders/items/:itemId, body [{ sessionToken }]. *)
Definition removeOrderItem (itemId : nat) (sessionToken : string) : M unit :=
  if String.eqb sessionToken ""
  then raise (ErrorTypes.BadRequest "Session token is required")
  else
    validation <- withSession sessionToken ;;
    orderItem <- gets (findOrderItemByPk itemId) ;;
    match orderItem with
    | None => raise (ErrorTypes.NotFound "Order item")
    | Some orderItem =>
        if negb (Nat.eqb (OrderItem.order_id orderItem)
                         (QRService.v_orderId validation))
        then raise (ErrorTypes.Forbidden
                      "This item does not belong to your order")
        else
          OrderItem_destroy orderItem ;;;
          recalculateOrderTotals (QRService.v_orderId validation) ;;;
          emit (orderRoom (QRService.v_orderId validation)) "item-removed"
    end.

(** POST /api/orders/:orderId/submit,
    body [{ sessionToken, specialInstructions? }]; [orderId] is the
    number [parseInt] reads from the path. *)
Definition submitOrder (orderId : nat) (sessionToken : string)
    (specialInstructions : option string) : M Order.t :=
  validation <- withSession sessionToken ;;
  if negb (Nat.eqb (QRService.v_orderId validation) orderId)
  then raise (ErrorTypes.Forbidden "Access denied")
  else
    order <- gets (findOrderByPk orderId) ;;
    match order with
    | None => raise (ErrorTypes.NotFound "Order")
    | Some order =>
        items <- gets (items_of orderId) ;;
        if Nat.eqb (List.length items) 0
        then raise (ErrorTypes.BadRequest "Cannot submit an empty order")
        else if negb (OrderStatus_eqb (Order.status order) pending)
        then raise ErrorTypes.InvalidOrderStatus
        else
          let order' :=
            Order.set_special_instructions specialInstructions
              (Order.set_status confirmed order) in
          Order_save order' ;;;
          emit (orderRoom orderId) "order-submitted" ;;;
          emit (kitchenRoom (Order.restaurant_id order)) "new-order" ;;;
          ret order'
    end.

Definition validStatuses : list string :=
  ["pending"; "confirmed"; "preparing"; "ready"; "served"; "completed";
   "cancelled"].

(** [Order.findOne({ where: { order_id, restaurant_id } })] *)
Definition findOrderOfRestaurant (orderId restaurantId : nat) (w : World)
    : option Order.t :=
  find (fun o => Nat.eqb (Order.order_id o) orderId
                 && Nat.eqb (Order.restaurant_id o) restaurantId)
       (orders w).

(** PATCH /api/admin/orders/:orderId/status, body [{ status }], by a staff
    user of restaurant [restaurant_id]. *)
Definition updateOrderStatus (restaurant_id orderId : nat) (status : string)
    : M Order.t :=
  if String.eqb status ""
  then raise (ErrorTypes.BadRequest "Status is required")
  else if negb (includes validStatuses status)
  then raise (ErrorTypes.BadRequest "Invalid status value")
  else
    order <- gets (findOrderOfRestaurant orderId restaurant_id) ;;
    match order with
    | None => raise (ErrorTypes.NotFound "Order")
    | Some order =>
        match status_of_string status with
        | None => raise (Thrown "SequelizeDatabaseError: invalid enum value")
        | Some st =>
            let order' := Order.set_status st order in
            Order_save order' ;;;
            (if String.eqb status "completed" || String.eqb status "cancelled"
             then Table_update_status available (Order.table_id order)
             else ret tt) ;;;
            emit (orderRoom orderId) "order-status-updated" ;;;
            emit (kitchenRoom restaurant_id) "order-updated" ;;;
            ret order'
        end
    end.

End OrderController.

(* ===================================================================== *)
(** ** src/socket/kitchenHandlers.js *)
(* ===================================================================== *)

Module KitchenHandlers.

Definition validStatuses : list string :=
  ["confirmed"; "preparing"; "ready"; "served"; "completed"; "cancelled"].

Definition cashierRoom (restaurantId : nat) : string :=
  "restaurant-" ++ string_of_nat restaurantId ++ "-cashier".

(** The body of the [try] of [socket.on('update-order-status', ...)]:
    [Failure m] is [socket.emit('error', { message: m })] followed by
    [return]; [socket.data.restaurantId] is undefined until the socket
    has joined a kitchen room, and Sequelize refuses an undefined value
    in a [where]. *)
Definition updateOrderStatusBody (restaurantId : option nat) (orderId : nat)
    (status : string) : M (Outcome Order.t) :=
  if Nat.eqb orderId 0 || String.eqb status ""
  then ret (Failure "Order ID and status are required")
  else if negb (includes validStatuses status)
  then ret (Failure "Invalid status")
  else
    match restaurantId with
    | None => raise (Thrown "Error: WHERE parameter has invalid undefined value")
    | Some restaurantId =>
        order <- gets (OrderController.findOrderOfRestaurant
                         orderId restaurantId) ;;
        match order with
        | None => ret (Failure "Order not found")
        | Some order =>
            match status_of_string status with
            | None =>
                raise (Thrown "SequelizeDatabaseError: invalid enum value")
            | Some st =>
                let order' := Order.set_status st order in
                Order_save order' ;;;
                (if String.eqb status "completed"
                    || String.eqb status "cancelled"
                 then Table_update_status available (Order.table_id order)
                 else ret tt) ;;;
                emit (OrderController.orderRoom orderId)
                     "order-status-updated" ;;;
                emit (OrderController.kitchenRoom restaurantId)
                     "order-updated" ;;;
                (if String.eqb status "ready" || String.eqb status "completed"
                 then emit (cashierRoom restaurantId) "order-ready-for-payment"
                 else ret tt) ;;;
                ret (Success order')
            end
        end
    end.

(** The handler: the [catch] turns any exception into an error event. *)
Definition updateOrderStatus (restaurantId : option nat) (orderId : nat)
    (status : string) : World -> Outcome Order.t * World :=
  fun w =>
    match updateOrderStatusBody restaurantId orderId status w with
    | (Return r, w') => (r, w')
    | (Raise _, w') => (Failure "Failed to update order status", w')
    end.

End KitchenHandlers.

(* ===================================================================== *)
(** ** src/services/order.service.js *)
(* ===================================================================== *)

Module OrderService.

Record Totals : Type := mkTotals {
  subtotal : Number;
  taxAmount : Number;
  serviceCharge : Number;
  totalAmount : Number
}.

(** [parseFloat(x.toFixed(2))] *)
Definition round2 (x : Number) : Number := parseFloat_fixed (toFixed2 x).

(** With [tax_rate] a non-null DECIMAL the guard [tax_rate || 0] keeps
    the column's string, which is truthy even for "0.00". *)
Definition rateOf (hundredths : Z) : Number :=
  div (parseFloat hundredths) (of_Z 100).

Definition calculateOrderTotals (orderId : nat) : M Totals :=
  order <- gets (findOrderByPk orderId) ;;
  match order with
  | None => raise (Thrown "Error: Order not found")
  | Some order =>
      items <- gets (items_of orderId) ;;
      restaurant <- gets (findRestaurantByPk (Order.restaurant_id order)) ;;
      match restaurant with
      | None => raise (Thrown "TypeError: order.restaurant is null")
      | Some restaurant =>
          let subtotal := OrderController.sumSubtotals items in
          let taxRate := rateOf (Restaurant.tax_rate restaurant) in
          let serviceChargeRate :=
            rateOf (Restaurant.service_charge_rate restaurant) in
          let taxAmount := mul subtotal taxRate in
          let serviceCharge := mul subtotal serviceChargeRate in
          let totalAmount := add (add subtotal taxAmount) serviceCharge in
          ret (mkTotals (round2 subtotal) (round2 taxAmount)
                        (round2 serviceCharge) (round2 totalAmount))
      end
  end.

Definition updateOrderTotals (orderId : nat) : M Order.t :=
  totals <- calculateOrderTotals orderId ;;
  order <- gets (findOrderByPk orderId) ;;
  match order with
  | None => raise (Thrown "Error: Order not found")
  | Some order =>
      match to_DECIMAL_10_2 (toFixed2 (subtotal totals)),
            to_DECIMAL_10_2 (toFixed2 (taxAmount totals)),
            to_DECIMAL_10_2 (toFixed2 (serviceCharge totals)),
            to_DECIMAL_10_2 (toFixed2 (totalAmount totals)) with
      | Some sub, Some tax, Some svc, Some tot =>
          let order' := Order.set_totals sub tax svc tot order in
          Order_save order' ;;;
          ret order'
      | _, _, _, _ => raise (Thrown "SequelizeDatabaseError: numeric value")
      end
  end.

Record ItemData : Type := mkItemData {
  item_name : string;
  item_quantity : Z;
  item_unitPrice : Number;
  item_subtotal : Number
}.

(** An entry of [guestTotals] while the items are being grouped. *)
Record GuestTotal : Type := mkGuestTotal {
  guestId : nat;
  guestName : string;
  items : list ItemData;
  g_subtotal : Number
}.

(** A finished entry of [guestBills]. *)
Record GuestBill : Type := mkGuestBill {
  bill_guestId : nat;
  bill_guestName : string;
  bill_items : list ItemData;
  bill_subtotal : Number;
  bill_taxAmount : Number;
  bill_serviceCharge : Number;
  bill_total : Number
}.

(** [guestTotals] is a plain object with integer keys; [Object.values]
    walks such keys in ascending order, so the object is kept as a list
    sorted by key. *)
Definition GuestTotals : Type := list GuestTotal.

Fixpoint lookupGuest (g : nat) (t : GuestTotals) : option GuestTotal :=
  match t with
  | [] => None
  | e :: rest => if Nat.eqb (guestId e) g then Some e else lookupGuest g rest
  end.

(** [guestTotals[g] = e] *)
Fixpoint setGuest (e : GuestTotal) (t : GuestTotals) : GuestTotals :=
  match t with
  | [] => [e]
  | x :: rest =>
      if Nat.eqb (guestId x) (guestId e) then e :: rest
      else if Nat.ltb (guestId e) (guestId x) then e :: x :: rest
      else x :: setGuest e rest
  end.

(** One round of [order.items.forEach(item => { ... })], given the
    included [item.addedByGuest.guest_name] and [item.menuItem.name]. *)
Definition addToGuest (addedByGuestName menuName : string)
    (item : OrderItem.t) (t : GuestTotals) : GuestTotals :=
  let g := OrderItem.added_by_guest_id item in
  let entry := match lookupGuest g t with
               | Some e => e
               | None => mkGuestTotal g addedByGuestName [] zero
               end in
  let itemData := mkItemData menuName (OrderItem.quantity item)
                    (parseFloat (OrderItem.unit_price item))
                    (parseFloat (OrderItem.subtotal item)) in
  setGuest (mkGuestTotal (guestId entry) (guestName entry)
              (items entry ++ [itemData])%list
              (add (g_subtotal entry) (parseFloat (OrderItem.subtotal item))))
           t.

Definition findGuestByPk (id : nat) (w : World) : option OrderGuest.t :=
  find (fun g => Nat.eqb (OrderGuest.guest_id g) id) (order_guests w).

Fixpoint groupByGuest (w : World) (l : list OrderItem.t) (t : GuestTotals)
    : option GuestTotals :=
  match l with
  | [] => Some t
  | item :: rest =>
      match findGuestByPk (OrderItem.added_by_guest_id item) w,
            findMenuItemByPk (OrderItem.menu_item_id item) w with
      | Some guest, Some menuItem =>
          groupByGuest w rest
            (addToGuest (OrderGuest.guest_name guest) (MenuItem.name menuItem)
                        item t)
      | _, _ => None
      end
  end.

(** The body of [Object.values(guestTotals).forEach(guest => { ... })]. *)
Definition finishGuest (taxRate serviceChargeRate : Number) (guest : GuestTotal)
    : GuestBill :=
  let taxAmount := mul (g_subtotal guest) taxRate in
  let serviceCharge := mul (g_subtotal guest) serviceChargeRate in
  let total := add (add (g_subtotal guest) taxAmount) serviceCharge in
  mkGuestBill (guestId guest) (guestName guest) (items guest)
              (round2 (g_subtotal guest)) (round2 taxAmount)
              (round2 serviceCharge) (round2 total).

Record BillSplit : Type := mkBillSplit {
  split_orderId : nat;
  guestBills : list GuestBill;
  overallTotal : Number
}.

Definition calculateBillSplit (orderId : nat) : M BillSplit :=
  order <- gets (findOrderByPk orderId) ;;
  match order with
  | None => raise (Thrown "Error: Order not found")
  | Some order =>
      orderItems <- gets (items_of orderId) ;;
      grouped <- gets (fun w => groupByGuest w orderItems []) ;;
      match grouped with
      | None => raise (Thrown "TypeError: included row is null")
      | Some guestTotals =>
          restaurant <- gets (findRestaurantByPk (Order.restaurant_id order)) ;;
          match restaurant with
          | None => raise (Thrown "TypeError: order.restaurant is null")
          | Some restaurant =>
              let taxRate := rateOf (Restaurant.tax_rate restaurant) in
              let serviceChargeRate :=
                rateOf (Restaurant.service_charge_rate restaurant) in
              ret (mkBillSplit orderId
                     (map (finishGuest taxRate serviceChargeRate) guestTotals)
                     (parseFloat (Order.total_amount order)))
          end
      end
  end.



End OrderService.

(* ===================================================================== *)
(** ** Two scans in flight *)
(* ===================================================================== *)

(** Node runs one request until its next [await] and may then resume
    another one.  [getOrCreateTableSession] awaits four times: on
    [Order.findOne], on [Order.count] (inside [generateOrderNumber]), on
    [Order.create] and on [Table.update].  A request in flight is the
    await it is about to issue, with the locals it holds. *)
Module Interleaving.

Import QRService.

Inductive Task : Type :=
| AtFindOne
| AtCount
| AtCreate (orderNumber : string)
| AtTableUpdate (activeOrder : Order.t)
| Finished (r : Result TableSession).

(** The database access a request performs when it is resumed, up to its
    next await. *)
Definition step (clk : Clock) (tableId restaurantId : nat) (t : Task)
    (w : World) : Task * World :=
  match t with
  | AtFindOne =>
      match findActiveOrder tableId restaurantId w with
      | Some o => (Finished (Return (sessionOf o)), w)
      | None => (AtCount, w)
      end
  | AtCount =>
      (AtCreate (formatOrderNumber clk restaurantId
                   (countOrdersToday clk restaurantId w)), w)
  | AtCreate orderNumber =>
      match Order_create clk restaurantId tableId orderNumber w with
      | (Return o, w') => (AtTableUpdate o, w')
      | (Raise e, w') => (Finished (Raise e), w')
      end
  | AtTableUpdate o =>
      match Table_update_status occupied tableId w with
      | (_, w') => (Finished (Return (sessionOf o)), w')
      end
  | Finished r => (Finished r, w)
  end.

Fixpoint run (clk : Clock) (tableId restaurantId : nat) (fuel : nat)
    (t : Task) (w : World) : Task * World :=
  match fuel with
  | O => (t, w)
  | S fuel' =>
      let '(t', w') := step clk tableId restaurantId t w in
      run clk tableId restaurantId fuel' t' w'
  end.

(** Which of the two requests the event loop resumes next. *)
Inductive Turn : Type := First | Second.

(** Two scans of the same table, resumed in the order of the schedule. *)
Fixpoint run2 (clk : Clock) (tableId restaurantId : nat)
    (schedule : list Turn) (a b : Task) (w : World) : Task * Task * World :=
  match schedule with
  | [] => (a, b, w)
  | First :: rest =>
      let '(a', w') := step clk tableId restaurantId a w in
      run2 clk tableId restaurantId rest a' b w'
  | Second :: rest =>
      let '(b', w') := step clk tableId restaurantId b w in
      run2 clk tableId restaurantId rest a b' w'
  end.

(** The order id a finished scan resolved to. *)
Definition resolved (t : Task) : option nat :=
  match t with
  | Finished (Return s) => Some (orderId s)
  | _ => None
  end.

End Interleaving.

(* ===================================================================== *)
(** ** A restaurant to run the handlers on *)
(* ===================================================================== *)

Module Fixture.

(** Cairo Grill, tax 14%, service 12%, with table 5. *)
Definition cairoGrill : Restaurant.t :=
  Restaurant.mk 1 "Cairo Grill" true 1400 1200.

Definition table5 : Table.t :=
  Table.mk 5 1 "5" "cairo-grill-T5-00ff" available.

Definition koshari : MenuItem.t := MenuItem.mk 1 "Koshari" 10000 true.
Definition falafel : MenuItem.t := MenuItem.mk 2 "Falafel" 5000 true.
Definition tea : MenuItem.t := MenuItem.mk 3 "Tea" 125 true.

Definition clk : Clock :=
  mkClock 1737288000000 "20250119" 1737244800000 1737331199999.

Definition empty : World :=
  mkWorld [cairoGrill] [table5] [koshari; falafel; tea] [] [] [] 0 0 0 0 [].

(** The world a handler leaves behind. *)
Definition after {A} (m : M A) (w : World) : World := snd (m w).

(** Friend 1 and friend 2 have scanned the code on table 5. *)
Definition twoGuests : World :=
  after (QRService.handleQRScan clk "bb" "cairo-grill-T5-00ff" None None)
    (after (QRService.handleQRScan clk "aa" "cairo-grill-T5-00ff" None None)
           empty).

(** Guest 1 has added a koshari and guest 2 a falafel. *)
Definition ordered : World :=
  after (OrderController.addItemToOrder "bb" 2 1 None)
    (after (OrderController.addItemToOrder "aa" 1 1 None) twoGuests).



End Fixture.

(* ===================================================================== *)
(** ** Vocabulary of the properties *)
(* ===================================================================== *)

(** A handler that only reads. *)
Definition read_only {A} (m : M A) : Prop := forall w, snd (m w) = w.









(** The items a guest added, in the order of the order's items. *)
Definition by_guest (g : nat) (l : list OrderItem.t) : list OrderItem.t :=
  filter (fun i => Nat.eqb (OrderItem.added_by_guest_id i) g) l.

(** The [itemData] of an item, with the name of its included menu item. *)
Definition itemDataOf (w : World) (i : OrderItem.t) : OrderService.ItemData :=
  OrderService.mkItemData
    (match findMenuItemByPk (OrderItem.menu_item_id i) w with
     | Some m => MenuItem.name m
     | None => ""
     end)
    (OrderItem.quantity i)
    (parseFloat (OrderItem.unit_price i))
    (parseFloat (OrderItem.subtotal i)).

(** The keys of [guestTotals], as [Object.values] walks them. *)
Definition keys (t : OrderService.GuestTotals) : list nat :=
  map OrderService.guestId t.

(** What [guestTotals] holds once the items [done] have been visited. *)
Definition grouped (w : World) (done : list OrderItem.t)
    (t : OrderService.GuestTotals) : Prop :=
  StronglySorted lt (keys t) /\
  forall g,
    match OrderService.lookupGuest g t with
    | Some e =>
        In g (map OrderItem.added_by_guest_id done) /\
        OrderService.items e = map (itemDataOf w) (by_guest g done) /\
        OrderService.g_subtotal e
        = OrderController.sumSubtotals (by_guest g done)
    | None => ~ In g (map OrderItem.added_by_guest_id done)
    end.

Definition Zsum (l : list Z) : Z := fold_right Z.add 0 l.

(** The sum of the [subtotal] columns of some items, in hundredths. *)
Definition hundredths (l : list OrderItem.t) : Z :=
  Zsum (map OrderItem.subtotal l).

(** The binary sum of the items' subtotals, formatted, is their decimal
    sum: the rounding of the additions has not drifted by half a
    hundredth. *)
Definition sums_exactly (l : list OrderItem.t) : Prop :=
  toFixed2 (OrderController.sumSubtotals l) = Digits false (hundredths l).

(** *** Numbers on the grid of 2^-1074 *)

(** The Number with mantissa [m] (not negative) and exponent [e]. *)
Definition float_of (m e : Z) : Number :=
  match m with
  | Z0 => S754_zero false
  | Zpos p => S754_finite false p e
  | Zneg _ => S754_nan
  end.

(** [x] is a Number that is not negative, with an exponent between -1074
    and -26; [v] is its value in units of 2^-1074. *)
Definition grid (x : Number) (v : Z) : Prop :=
  exists m e,
    x = float_of m e /\ 0 <= m /\ -1074 <= e <= -26 /\ v = m * 2 ^ (e + 1074).

(** 2^-26 and 2^27 in units of 2^-1074. *)
Definition ulp26 : Z := 2 ^ 1048.
Definition top27 : Z := 2 ^ 1101.

(** 1 in units of 2^-1074. *)
Definition one : Z := 2 ^ 1074.

(** Item subtotals in the range of one order: none negative, at most
    100,000 of them, and a sum of at most 100,000,000.00. *)
Definition within_bounds (l : list OrderItem.t) : Prop :=
  (forall i, In i l -> 0 <= OrderItem.subtotal i) /\
  hundredths l <= 10 ^ 10 /\
  Z.of_nat (List.length l) <= 100000.







(* ===================================================================== *)
(** ** Vocabulary of scans, tables and amounts *)
(* ===================================================================== *)

(** An order that a scan of table [tableId] of [restaurantId] joins. *)
Definition joinable (tableId restaurantId : nat) (o : Order.t) : Prop :=
  Order.table_id o = tableId /\ Order.restaurant_id o = restaurantId /\
  In (Order.status o) [pending; confirmed; preparing].

(** The order [Order.create] inserts for a scan. *)
Definition fresh_order (clk : Clock) (tableId restaurantId : nat) (w : World)
    : Order.t :=
  Order.mk (S (orders_seq w)) restaurantId tableId
    (QRService.formatOrderNumber clk restaurantId
       (QRService.countOrdersToday clk restaurantId w))
    pending 0 0 0 0 0 None (now clk).

(** [order_id] is the primary key of [orders] and its sequence is ahead
    of every key in use. *)
Definition order_keys (w : World) : Prop :=
  NoDup (map Order.order_id (orders w)) /\
  forall o, In o (orders w) -> (Order.order_id o <= orders_seq w)%nat.

(** The guests of an order, in the order in which they joined. *)
Definition guests_of (orderId : nat) (w : World) : list OrderGuest.t :=
  filter (fun g => Nat.eqb (OrderGuest.order_id g) orderId) (order_guests w).




(* ===================================================================== *)
(** ** src/controllers/order.controller.js: the scan *)
(* ===================================================================== *)

Module ScanController.

(** [deviceInfo || req.headers['user-agent']] *)
Definition orElse (a b : option string) : option string :=
  match a with
  | Some s => if String.eqb s "" then b else Some s
  | None => b
  end.

(** POST /api/orders/scan, body [{ qrToken, guestName?, deviceInfo? }]. *)
Definition scanQRAndJoin (clk : Clock) (randomHex qrToken : string)
    (guestName deviceInfo userAgent : option string)
    : M QRService.ScanResult :=
  if String.eqb qrToken ""
  then raise (ErrorTypes.BadRequest "QR token is required")
  else
    result <- QRService.handleQRScan clk randomHex qrToken guestName
                (orElse deviceInfo userAgent) ;;
    match result with
    | Failure e => raise (AppError e 400)
    | Success r =>
        emit (OrderController.orderRoom
                (QRService.orderId (QRService.scan_order r))) "guest-joined" ;;;
        ret r
    end.

End ScanController.

(* ===================================================================== *)
(** ** src/services/order.service.js: the item methods *)
(* ===================================================================== *)

Module OrderServiceItems.

(** [OrderItem.create] and [orderItem.update] validate the model first:
    [quantity: { validate: { min: 1 } }]. *)
Definition quantityError : Exn :=
  Thrown "SequelizeValidationError: Validation min on quantity failed".

(** The INSERT the service issues.  The controller has checked the session
    before it inserts; the service has not, and the row is refused when
    [order_id] or [added_by_guest_id] references no row (the key drawn from
    the sequence is lost, as it is when the amounts do not fit). *)
Definition createOrderItem (orderId menuItemId guestId : nat) (quantity : Z)
    (unitPrice : Number) (specialInstructions : option string)
    : M OrderItem.t :=
  if (quantity <? 1)%Z then raise quantityError
  else
    fun w =>
      match OrderItem_create orderId menuItemId guestId quantity unitPrice
              specialInstructions w with
      | (Return i, w') =>
          match findOrderByPk orderId w, OrderService.findGuestByPk guestId w with
          | Some _, Some _ => (Return i, w')
          | _, _ =>
              (Raise (Thrown "SequelizeForeignKeyConstraintError"),
               with_order_items (fun _ => order_items w) w')
          end
      | (Raise e, w') => (Raise e, w')
      end.

Definition addItemToOrder (orderId menuItemId guestId : nat) (quantity : Z)
    (specialInstructions : option string) : M OrderItem.t :=
  menuItem <- gets (findMenuItemByPk menuItemId) ;;
  match menuItem with
  | None => raise (Thrown "Error: Menu item not found")
  | Some menuItem =>
      if negb (MenuItem.is_available menuItem)
      then raise (Thrown ("Error: " ++ MenuItem.name menuItem
                          ++ " is currently unavailable"))
      else
        let unitPrice := parseFloat (MenuItem.price menuItem) in
        orderItem <- createOrderItem orderId menuItemId guestId quantity
                       unitPrice specialInstructions ;;
        OrderService.updateOrderTotals orderId ;;;
        ret orderItem
  end.


Definition removeOrderItem (orderItemId : nat) : M unit :=
  orderItem <- gets (findOrderItemByPk orderItemId) ;;
  match orderItem with
  | None => raise (Thrown "Error: Order item not found")
  | Some orderItem =>
      let orderId := OrderItem.order_id orderItem in
      OrderItem_destroy orderItem ;;;
      OrderService.updateOrderTotals orderId ;;;
      ret tt
  end.

End OrderServiceItems.

(* ===================================================================== *)
(** ** src/controllers/table.controller.js *)
(* ===================================================================== *)

Module TableController.

Definition validStatuses : list string :=
  ["available"; "occupied"; "reserved"; "maintenance"].

Definition table_status_name (s : TableStatus) : string :=
  match s with
  | available => "available"
  | occupied => "occupied"
  | reserved => "reserved"
  | maintenance => "maintenance"
  end.

Definition table_status_of_string (s : string) : option TableStatus :=
  find (fun st => String.eqb s (table_status_name st))
       [available; occupied; reserved; maintenance].

(** The row of [SELECT t.table_id, ..., r.restaurant_id, r.name ... FROM
    tables t JOIN restaurants r ON t.restaurant_id = r.restaurant_id]. *)
Record TableByQR : Type := mkTableByQR {
  q_table_id : nat;
  q_table_number : string;
  q_status : TableStatus;
  q_restaurant_id : nat;
  q_restaurant_name : string
}.

(** [WHERE t.qr_code = $1 AND r.is_active = true] over the join. *)
Definition joinByQR (qrCode : string) (w : World)
    : list (Table.t * Restaurant.t) :=
  flat_map
    (fun t =>
       map (fun r => (t, r))
           (filter (fun r => Nat.eqb (Restaurant.restaurant_id r)
                                     (Table.restaurant_id t)
                             && Restaurant.is_active r)
                   (restaurants w)))
    (filter (fun t => String.eqb (Table.qr_code t) qrCode) (tables w)).

(** GET /api/tables/qr/:qrCode *)
Definition getTableByQR (qrCode : string) : M TableByQR :=
  rows <- gets (joinByQR qrCode) ;;
  match rows with
  | [] => raise (AppError "Invalid QR code or table not found" 404)
  | (table, restaurant) :: _ =>
      if TableStatus_eqb (Table.status table) maintenance
      then raise (AppError "This table is currently under maintenance" 400)
      else ret (mkTableByQR (Table.table_id table) (Table.table_number table)
                            (Table.status table)
                            (Restaurant.restaurant_id restaurant)
                            (Restaurant.name restaurant))
  end.

(** The rows [WHERE table_id = $2 AND restaurant_id = $3] selects. *)
Definition selected (id restaurant_id : nat) (t : Table.t) : bool :=
  Nat.eqb (Table.table_id t) id && Nat.eqb (Table.restaurant_id t) restaurant_id.

(** PATCH /api/admin/tables/:id/status, body [{ status }], by a user of
    restaurant [restaurant_id]. *)
Definition updateTableStatus (restaurant_id id : nat) (status : string)
    : M Table.t :=
  if String.eqb status ""
  then raise (ErrorTypes.BadRequest "Status is required")
  else if negb (includes validStatuses status)
  then raise (ErrorTypes.BadRequest "Invalid status value")
  else
    match table_status_of_string status with
    | None => raise (Thrown "error: invalid input value for enum")
    | Some st =>
        rows <- gets (fun w => filter (selected id restaurant_id) (tables w)) ;;
        match rows with
        | [] => raise (ErrorTypes.NotFound "Table")
        | table :: _ =>
            modify (with_tables
                      (map (fun t => if selected id restaurant_id t
                                     then Table.set_status st t else t))) ;;;
            ret (Table.set_status st table)
        end
    end.

End TableController.

(* ===================================================================== *)
(** ** Reasoning about handlers *)
(* ===================================================================== *)

(** [t = v] for the value [v] that [t] evaluates to. *)
Ltac evaluated t H :=
  let v := eval vm_compute in t in
  assert (H : t = v) by (vm_compute; reflexivity).

(* ===================================================================== *)
(** ** Reasoning about handlers *)
(* ===================================================================== *)

Lemma bind_Return {A B} (m : M A) (k : A -> M B) w b w' :
  bind m k w = (Return b, w') ->
  exists a w1, m w = (Return a, w1) /\ k a w1 = (Return b, w').
Proof.
  unfold bind. destruct (m w) as [[a|e] w1]; intros H.
  - exists a, w1. split; [reflexivity | exact H].
  - discriminate H.
Qed.



Lemma read_only_gets {A} (f : World -> A) : read_only (gets f).
Proof. intros w. reflexivity. Qed.

Lemma validateGuestSession_read_only tok :
  read_only (QRService.validateGuestSession tok).
Proof.
  intros w. unfold QRService.validateGuestSession, bind, gets, ret, raise.
  destruct (findGuestByToken tok w); [|reflexivity].
  destruct (findOrderByPk _ w); [|reflexivity].
  destruct (negb _); [reflexivity|].
  destruct (findTableByPk _ w); reflexivity.
Qed.

Lemma withSession_read_only tok : read_only (OrderController.withSession tok).
Proof.
  intros w. unfold OrderController.withSession, bind.
  pose proof (validateGuestSession_read_only tok w) as H.
  destruct (QRService.validateGuestSession tok w) as [[[v|e]|e] w1];
    simpl in *; subst; reflexivity.
Qed.


(** A refused session is a 401 or a TypeError, and nothing else. *)
Lemma withSession_Raise tok w e w' :
  OrderController.withSession tok w = (Raise e, w') ->
  w' = w /\ ((exists m, e = AppError m 401) \/ (exists m, e = Thrown m)).
Proof.
  intros H. split.
  - pose proof (withSession_read_only tok w) as R. rewrite H in R. simpl in R. exact R.
  - revert H.
    unfold OrderController.withSession, QRService.validateGuestSession,
      bind, gets, ret, raise.
    destruct (findGuestByToken tok w) as [g|].
    2:{ intros H; inversion H; subst. left. eexists; reflexivity. }
    destruct (findOrderByPk _ w) as [o|].
    2:{ intros H; inversion H; subst. right. eexists; reflexivity. }
    destruct (includes _ _) eqn:Hact; simpl.
    2:{ intros H; inversion H; subst. left. eexists; reflexivity. }
    destruct (findTableByPk _ w) as [t|].
    + discriminate.
    + intros H; inversion H; subst. right. eexists; reflexivity.
Qed.

(* ===================================================================== *)
(** ** Submitting an order *)
(* ===================================================================== *)









(* ===================================================================== *)
(** ** Staff status updates *)
(* ===================================================================== *)











(* ===================================================================== *)
(** ** Guests and items *)
(* ===================================================================== *)










Lemma activeStatuses_spec (s : OrderStatus) :
  includes QRService.activeStatuses (status_name s) = true
  <-> In s [pending; confirmed; preparing; ready].
Proof.
  destruct s; simpl; split; intros H; try reflexivity; try discriminate H; auto;
    repeat (destruct H as [H|H]; try discriminate H); try contradiction.
Qed.




(* ===================================================================== *)
(** ** Scans *)
(* ===================================================================== *)

Module Scans.

Import Interleaving.

Lemma most_recent_In l o : most_recent l = Some o -> In o l.
Proof.
  revert o. induction l as [|x l IH]; simpl; intros o H; [discriminate|].
  destruct (most_recent l) as [o'|].
  - destruct (Order.created_at x <? Order.created_at o')%Z; inversion H; subst; auto.
  - inversion H; auto.
Qed.

Lemma most_recent_None l : most_recent l = None -> l = [].
Proof.
  destruct l as [|x l]; simpl; [reflexivity|].
  destruct (most_recent l) as [o'|];
    [destruct (Order.created_at x <? Order.created_at o')%Z|]; discriminate.
Qed.

(** The order a scan joins is on the scanned table and is pending,
    confirmed or preparing: an order that is ready is never joined. *)
Lemma findActiveOrder_joined tableId restaurantId w o :
  QRService.findActiveOrder tableId restaurantId w = Some o ->
  In o (orders w) /\ Order.table_id o = tableId /\
  Order.restaurant_id o = restaurantId /\
  In (Order.status o) [pending; confirmed; preparing].
Proof.
  unfold QRService.findActiveOrder. intros H. apply most_recent_In in H.
  apply filter_In in H. destruct H as [Hin H].
  apply andb_true_iff in H. destruct H as [H Hst].
  apply andb_true_iff in H. destruct H as [Ht Hr].
  apply Nat.eqb_eq in Ht. apply Nat.eqb_eq in Hr.
  repeat split; auto.
  destruct (Order.status o); simpl in *; auto; discriminate Hst.
Qed.

(** Run alone, the four resumptions of a scan are [getOrCreateTableSession]. *)
Lemma run_alone clk tableId restaurantId w :
  run clk tableId restaurantId 4 AtFindOne w
  = (Finished (fst (QRService.getOrCreateTableSession clk tableId restaurantId w)),
     snd (QRService.getOrCreateTableSession clk tableId restaurantId w)).
Proof.
  unfold QRService.getOrCreateTableSession, QRService.generateOrderNumber,
    bind, gets, ret. simpl.
  destruct (QRService.findActiveOrder tableId restaurantId w) as [o|]; simpl;
    [reflexivity|].
  destruct (Order_create clk restaurantId tableId _ w) as [[o|e] w1]; reflexivity.
Qed.

(** One scan after the other: the first creates the order, the second
    finds it and joins it. *)
Lemma scans_in_sequence clk clk' tableId restaurantId w s1 w1 :
  QRService.findActiveOrder tableId restaurantId w = None ->
  QRService.getOrCreateTableSession clk tableId restaurantId w = (Return s1, w1) ->
  List.length (orders w1) = S (List.length (orders w)) /\
  exists s2,
    QRService.getOrCreateTableSession clk' tableId restaurantId w1
    = (Return s2, w1) /\
    QRService.orderId s2 = QRService.orderId s1.
Proof.
  intros Hnone H.
  unfold QRService.getOrCreateTableSession, QRService.generateOrderNumber,
    bind, gets, ret in H.
  rewrite Hnone in H. unfold Order_create in H.
  destruct (existsb _ (orders w)); [discriminate H|].
  unfold Table_update_status, modify in H. inversion H; subst s1 w1. clear H.
  split; [simpl; rewrite length_app; simpl; lia|].
  unfold QRService.getOrCreateTableSession, bind, gets, ret.
  unfold QRService.findActiveOrder in *. cbn [orders with_tables with_orders].
  rewrite filter_app. rewrite (most_recent_None _ Hnone).
  cbn [filter app Order.table_id Order.restaurant_id Order.status].
  rewrite !Nat.eqb_refl. cbn.
  eexists. split; reflexivity.
Qed.

(** Whatever the database, when no order of the table is pending,
    confirmed or preparing and two scans are resumed in lock step, both
    read the same count, build the same order number, and the UNIQUE
    constraint on [order_number] lets at most one insert through: one of
    the two scans fails. *)
Lemma lock_step_scans clk tableId restaurantId w :
  QRService.findActiveOrder tableId restaurantId w = None ->
  let '(a, b, _) :=
    run2 clk tableId restaurantId
         [First; Second; First; Second; First; Second; First; Second]
         AtFindOne AtFindOne w in
  (exists ra rb, a = Finished ra /\ b = Finished rb) /\
  (resolved a = None \/ resolved b = None).
Proof.
  intros Hnone. simpl. rewrite !Hnone. simpl.
  set (number := QRService.formatOrderNumber clk restaurantId
                   (QRService.countOrdersToday clk restaurantId w)).
  unfold Order_create at 1.
  destruct (existsb (fun o => String.eqb (Order.order_number o) number) (orders w))
    eqn:Hdup.
  - (* the number is taken already: the first insert is refused *)
    unfold Order_create. simpl. rewrite Hdup. simpl.
    split; [eexists; eexists; split; reflexivity | left; reflexivity].
  - unfold Order_create. simpl.
    rewrite existsb_app. simpl. rewrite String.eqb_refl, orb_true_r. simpl.
    split; [eexists; eexists; split; reflexivity | right; reflexivity].
Qed.



End Scans.

(* ===================================================================== *)
(** ** Rounding *)
(* ===================================================================== *)

Local Open Scope Z_scope.




(** *** No negative amounts *)









(** *** The rounding of binary64, one ulp at a time *)

Lemma shr_1_m mrs :
  0 <= shr_m mrs -> shr_m (shr_1 mrs) = shr_m mrs / 2.
Proof.
  destruct mrs as [m r s]. simpl. intros Hm.
  destruct m as [|p|p]; [reflexivity| |lia].
  destruct p as [p|p|]; simpl.
  - rewrite Pos2Z.inj_xI. apply Z.div_unique with (r := 1); lia.
  - rewrite Pos2Z.inj_xO. apply Z.div_unique with (r := 0); lia.
  - reflexivity.
Qed.

Lemma pow2_xI p : 2 ^ Z.pos p~1 = 2 * (2 ^ Z.pos p * 2 ^ Z.pos p).
Proof.
  rewrite Pos2Z.inj_xI.
  replace (2 * Z.pos p + 1) with (1 + (Z.pos p + Z.pos p)) by lia.
  rewrite Z.pow_add_r by lia. rewrite Z.pow_add_r by lia. reflexivity.
Qed.

Lemma pow2_xO p : 2 ^ Z.pos p~0 = 2 ^ Z.pos p * 2 ^ Z.pos p.
Proof.
  rewrite <- Z.pow_add_r by lia. f_equal. lia.
Qed.

Lemma iter_pos_shr_1 p : forall mrs,
  0 <= shr_m mrs ->
  shr_m (iter_pos shr_1 p mrs) = shr_m mrs / 2 ^ Zpos p.
Proof.
  induction p as [p IH|p IH|]; intros mrs Hm; simpl iter_pos.
  - assert (H1 : 0 <= shr_m (shr_1 mrs))
      by (rewrite shr_1_m by exact Hm; apply Z.div_pos; lia).
    assert (H2 : 0 <= shr_m (iter_pos shr_1 p (shr_1 mrs)))
      by (rewrite IH by exact H1; apply Z.div_pos; [exact H1|];
          apply Z.pow_pos_nonneg; lia).
    assert (Hp : 0 < 2 ^ Z.pos p) by (apply Z.pow_pos_nonneg; lia).
    rewrite IH by exact H2. rewrite IH by exact H1. rewrite shr_1_m by exact Hm.
    rewrite !Z.div_div by lia. rewrite pow2_xI. reflexivity.
  - assert (H2 : 0 <= shr_m (iter_pos shr_1 p mrs))
      by (rewrite IH by exact Hm; apply Z.div_pos; [exact Hm|];
          apply Z.pow_pos_nonneg; lia).
    assert (Hp : 0 < 2 ^ Z.pos p) by (apply Z.pow_pos_nonneg; lia).
    rewrite IH by exact H2. rewrite IH by exact Hm.
    rewrite !Z.div_div by lia. rewrite pow2_xO. reflexivity.
  - rewrite shr_1_m by exact Hm. reflexivity.
Qed.

(** [shr] drops the [n] low bits of the mantissa. *)
Lemma shr_spec mrs e n :
  0 <= shr_m mrs ->
  shr_m (fst (shr mrs e n)) = shr_m mrs / 2 ^ Z.max 0 n /\
  snd (shr mrs e n) = e + Z.max 0 n.
Proof.
  intros Hm. unfold shr. destruct n as [|p|p]; simpl fst; simpl snd.
  - rewrite Z.div_1_r. split; [reflexivity | lia].
  - rewrite iter_pos_shr_1 by exact Hm.
    replace (Z.max 0 (Z.pos p)) with (Z.pos p) by lia. split; reflexivity.
  - replace (Z.max 0 (Z.neg p)) with 0 by lia. simpl. rewrite Z.div_1_r.
    split; [reflexivity | lia].
Qed.

Lemma shr_record_of_loc_m m l : shr_m (shr_record_of_loc m l) = m.
Proof. destruct l as [|[| |]]; reflexivity. Qed.

Lemma round_nearest_even_range m l :
  m <= round_nearest_even m l <= m + 1.
Proof.
  unfold round_nearest_even. destruct l as [|[| |]]; try lia.
  destruct (Z.even m); lia.
Qed.

(** The number of binary digits. *)
Lemma digits2_pos_size p : digits2_pos p = Pos.size p.
Proof. induction p; simpl; congruence. Qed.

Lemma Zdigits2_bound m k :
  0 <= m -> 0 <= k -> m < 2 ^ k -> Zdigits2 m <= k.
Proof.
  intros Hm Hk Hlt. destruct m as [|p|p]; simpl; [lia| |lia].
  rewrite digits2_pos_size.
  pose proof (Pos.size_le p) as Hs.
  (* 2 ^ size p <= 2 p *)
  destruct (Z_le_gt_dec (Z.pos (Pos.size p)) k) as [Hle|Hgt]; [exact Hle|].
  exfalso.
  assert (H1 : (2 ^ Pos.size p <= p~0)%positive) by exact Hs.
  assert (H2 : 2 ^ Z.pos (Pos.size p) <= 2 * Z.pos p).
  { rewrite <- Pos2Z.inj_pow. change (2 * Z.pos p) with (Z.pos p~0).
    apply Pos2Z.pos_le_pos. exact H1. }
  assert (H3 : 2 ^ (k + 1) <= 2 ^ Z.pos (Pos.size p))
    by (apply Z.pow_le_mono_r; lia).
  rewrite Z.pow_add_r in H3 by lia. lia.
Qed.

Lemma fexp_eq e : fexp prec emax e = Z.max (e - 53) (-1074).
Proof. reflexivity. Qed.

Lemma pow2_pos k : 0 <= k -> 0 < 2 ^ k.
Proof. intros. apply Z.pow_pos_nonneg; lia. Qed.

Lemma pow2_ge_1 k : 0 <= k -> 1 <= 2 ^ k.
Proof. intros H. pose proof (pow2_pos k H). lia. Qed.

Lemma pow2_split a b : 0 <= a -> 0 <= b -> 2 ^ (a + b) = 2 ^ a * 2 ^ b.
Proof. intros. apply Z.pow_add_r; assumption. Qed.

(** Rounding a mantissa [mx] at exponent [ex], of a value below
    2^(B+53), with [ex <= B]: the result sits on a grid 2^e2 with
    [e2 <= B], at most one step of the grid away from the interval
    [mx, mx + 1) 2^ex in which the value lies. *)
Lemma binary_round_aux_one_ulp (B mx ex : Z) (lx : location) :
  0 <= mx -> -1074 <= B <= 971 -> ex <= B ->
  mx + 1 + 2 ^ (B - ex) <= 2 ^ (B + 53 - ex) ->
  exists m2 e2,
    binary_round_aux prec emax false mx ex lx = float_of m2 e2 /\
    0 <= m2 /\ ex <= e2 <= B /\
    (m2 - 1) * 2 ^ (e2 - ex) <= mx /\
    mx + 1 <= (m2 + 1) * 2 ^ (e2 - ex).
Proof.
  intros Hmx HB Hex Hval.
  unfold binary_round_aux, shr_fexp.
  set (n1 := fexp prec emax (Zdigits2 mx + ex) - ex).
  pose proof (shr_spec (shr_record_of_loc mx lx) ex n1) as H1.
  rewrite shr_record_of_loc_m in H1. specialize (H1 Hmx).
  destruct (shr (shr_record_of_loc mx lx) ex n1) as [mrs' e'].
  cbn [fst snd] in H1. destruct H1 as [Hm1 He'].
  set (N1 := Z.max 0 n1) in *.
  assert (HN1 : 0 <= N1) by (unfold N1; lia).
  set (m1 := shr_m mrs') in *.
  pose proof (round_nearest_even_range m1 (loc_of_shr_record mrs')) as Hr.
  set (m1' := round_nearest_even m1 (loc_of_shr_record mrs')) in *.
  pose proof (pow2_pos N1 HN1) as HP1.
  assert (Hm1pos : 0 <= m1) by (rewrite Hm1; apply Z.div_pos; lia).
  assert (Hm1' : 0 <= m1') by lia.
  set (n2 := fexp prec emax (Zdigits2 m1' + e') - e').
  pose proof (shr_spec (shr_record_of_loc m1' loc_Exact) e' n2) as H2.
  rewrite shr_record_of_loc_m in H2. specialize (H2 Hm1').
  destruct (shr (shr_record_of_loc m1' loc_Exact) e' n2) as [mrs'' e''].
  cbn [fst snd] in H2. destruct H2 as [Hm2 He''].
  set (N2 := Z.max 0 n2) in *.
  assert (HN2 : 0 <= N2) by (unfold N2; lia).
  pose proof (pow2_pos N2 HN2) as HP2.
  set (m2 := shr_m mrs'') in *.
  assert (Hm2pos : 0 <= m2) by (rewrite Hm2; apply Z.div_pos; lia).
  (* the divisions *)
  assert (D1 : m1 * 2 ^ N1 <= mx < (m1 + 1) * 2 ^ N1).
  { rewrite Hm1. pose proof (Z.mul_div_le mx (2 ^ N1) HP1).
    pose proof (Z.mul_succ_div_gt mx (2 ^ N1) HP1). lia. }
  assert (D2 : m2 * 2 ^ N2 <= m1' < (m2 + 1) * 2 ^ N2).
  { rewrite Hm2. pose proof (Z.mul_div_le m1' (2 ^ N2) HP2).
    pose proof (Z.mul_succ_div_gt m1' (2 ^ N2) HP2). lia. }
  (* the exponents *)
  assert (Hd : Zdigits2 mx <= B + 53 - ex).
  { apply Zdigits2_bound; [exact Hmx | lia |].
    pose proof (pow2_pos (B - ex) ltac:(lia)). lia. }
  assert (He'B : e' <= B).
  { rewrite He'. unfold N1, n1. rewrite fexp_eq. lia. }
  assert (Hpow : 2 ^ (B + 53 - ex) = 2 ^ (B + 53 - e') * 2 ^ N1).
  { rewrite <- pow2_split by lia. f_equal. lia. }
  assert (HP1B : 2 ^ N1 <= 2 ^ (B - ex)) by (apply Z.pow_le_mono_r; lia).
  assert (Hm1'lt : m1' < 2 ^ (B + 53 - e')).
  { pose proof (pow2_pos (B + 53 - e') ltac:(lia)) as HQ.
    set (Q := 2 ^ (B + 53 - e')) in *. set (P1 := 2 ^ N1) in *.
    assert (m1 * P1 + 1 + P1 <= Q * P1) by lia.
    assert (m1 + 1 < Q) by nia. lia. }
  assert (Hd' : Zdigits2 m1' <= B + 53 - e')
    by (apply Zdigits2_bound; [exact Hm1' | lia | exact Hm1'lt]).
  assert (He''B : e'' <= B).
  { rewrite He''. unfold N2, n2. rewrite fexp_eq. lia. }
  exists m2, e''.
  assert (Hdiff : e'' - ex = N1 + N2) by lia.
  rewrite Hdiff, pow2_split by lia.
  split.
  - unfold float_of. destruct m2 as [|p|p]; [reflexivity| |lia].
    replace (e'' <=? emax - prec) with true; [reflexivity|].
    symmetry. apply Z.leb_le. unfold emax, prec. lia.
  - split; [exact Hm2pos|]. split; [lia|].
    set (P1 := 2 ^ N1) in *. set (P2 := 2 ^ N2) in *.
    split; nia.
Qed.

Lemma iter_xO_pos m d : Zpos (Pos.iter xO m d) = Zpos m * 2 ^ Zpos d.
Proof.
  induction d as [|d IH] using Pos.peano_ind.
  - simpl. lia.
  - rewrite Pos.iter_succ, Pos2Z.inj_xO, IH, Pos2Z.inj_succ, Z.pow_succ_r by lia.
    lia.
Qed.

(** [shl_align] keeps the value and lowers the exponent to the smaller of
    the two. *)
Lemma shl_align_spec m e e' :
  snd (shl_align m e e') = Z.min e e' /\
  Zpos (fst (shl_align m e e')) = Zpos m * 2 ^ (e - Z.min e e').
Proof.
  unfold shl_align. destruct (e' - e) as [|d|d] eqn:Hd; cbn [fst snd].
  - replace (Z.min e e') with e by lia. rewrite Z.sub_diag. simpl. lia.
  - replace (Z.min e e') with e by lia. rewrite Z.sub_diag. simpl. lia.
  - replace (Z.min e e') with e' by lia. split; [reflexivity|].
    rewrite iter_xO_pos. f_equal. f_equal. lia.
Qed.

(** A mantissa that already fits is left as it is. *)
Lemma binary_round_aux_exact (m : positive) (e : Z) :
  Zpos m < 2 ^ 53 -> -1074 <= e <= 971 ->
  binary_round_aux prec emax false (Zpos m) e loc_Exact = S754_finite false m e.
Proof.
  intros Hm He.
  assert (Hd : Zdigits2 (Zpos m) <= 53)
    by (apply Zdigits2_bound; [lia | lia | exact Hm]).
  unfold binary_round_aux, shr_fexp.
  assert (Hn : fexp prec emax (Zdigits2 (Z.pos m) + e) - e <= 0)
    by (rewrite fexp_eq; lia).
  assert (Hshr : forall mrs n, n <= 0 -> shr mrs e n = (mrs, e)).
  { intros mrs n H. unfold shr. destruct n; try reflexivity. lia. }
  rewrite (Hshr _ _ Hn). cbn [shr_record_of_loc shr_m loc_of_shr_record
                               round_nearest_even].
  rewrite (Hshr _ _ Hn). cbn [shr_record_of_loc shr_m].
  replace (e <=? emax - prec) with true; [reflexivity|].
  symmetry. apply Z.leb_le. unfold emax, prec. lia.
Qed.

(** Integers below 2^53 are Numbers. *)
Lemma of_Z_exact (c : Z) :
  0 < c < 2 ^ 53 ->
  exists m e,
    of_Z c = S754_finite false m e /\
    -52 <= e <= 0 /\ e = Z.min 0 (Zdigits2 c - 53) /\
    Zpos m = c * 2 ^ (- e) /\ Zpos m < 2 ^ 53.
Proof.
  intros [Hc0 Hc]. destruct c as [|p|p]; try lia.
  unfold of_Z, binary_normalize, binary_round.
  pose proof (shl_align_spec p 0 (fexp prec emax (Z.pos (digits2_pos p) + 0)))
    as [He Hm].
  destruct (shl_align p 0 _) as [mz ez]. cbn [fst snd] in He, Hm.
  rewrite <- He in Hm.
  assert (Hd : 1 <= Zdigits2 (Zpos p) <= 53).
  { split; [simpl; lia|]. apply Zdigits2_bound; lia. }
  simpl Zdigits2 in Hd.
  rewrite fexp_eq in He.
  assert (Hez : ez = Z.min 0 (Z.pos (digits2_pos p) - 53)) by lia.
  assert (Hlt : Zpos mz < 2 ^ 53).
  { rewrite Hm.
    pose proof (Pos.size_gt p) as Hs. rewrite <- digits2_pos_size in Hs.
    assert (Hp : Z.pos p < 2 ^ Z.pos (digits2_pos p)).
    { rewrite <- Pos2Z.inj_pow. apply Pos2Z.pos_lt_pos. exact Hs. }
    assert (Hle : 2 ^ Z.pos (digits2_pos p) * 2 ^ (0 - ez) <= 2 ^ 53).
    { rewrite <- pow2_split by lia. apply Z.pow_le_mono_r; lia. }
    pose proof (pow2_pos (0 - ez) ltac:(lia)). nia. }
  exists mz, ez.
  rewrite binary_round_aux_exact by (try exact Hlt; lia).
  refine (conj eq_refl (conj _ (conj Hez (conj _ Hlt)))).
  - lia.
  - rewrite Hm. reflexivity.
Qed.

Lemma ulp26_pos : 0 < ulp26.
Proof. unfold ulp26. apply pow2_pos. lia. Qed.

Lemma grid_zero : grid (S754_zero false) 0.
Proof. exists 0, (-26). repeat split; try reflexivity; lia. Qed.

Lemma scale_le (a b w : Z) : 0 < w -> a * w <= b * w -> a <= b.
Proof. intros Hw H. nia. Qed.

(** [x + y] is within 2^-26 of the sum of the values. *)
Lemma add_grid x y vx vy :
  grid x vx -> grid y vy ->
  vx + vy + 2 * ulp26 <= top27 ->
  exists vz,
    grid (add x y) vz /\ vx + vy - ulp26 <= vz <= vx + vy + ulp26.
Proof.
  intros (mx & ex & -> & Hmx & Hex & ->) (my & ey & -> & Hmy & Hey & ->) Hsum.
  pose proof ulp26_pos as H1048.
  destruct mx as [|px|px]; [| |lia].
  { (* 0 + y *)
    exists (my * 2 ^ (ey + 1074)). split; [|lia].
    destruct my as [|py|py]; [| |lia].
    - simpl. apply grid_zero.
    - exists (Zpos py), ey. repeat split; try reflexivity; lia. }
  destruct my as [|py|py]; [| |lia].
  { (* x + 0 *)
    exists (Zpos px * 2 ^ (ex + 1074)). split; [|lia].
    exists (Zpos px), ex. repeat split; try reflexivity; lia. }
  unfold float_of, add, SFadd.
  set (ez := Z.min ex ey).
  pose proof (shl_align_spec px ex ez) as [_ Ha].
  pose proof (shl_align_spec py ey ez) as [_ Hb].
  replace (Z.min ex ez) with ez in Ha by lia.
  replace (Z.min ey ez) with ez in Hb by lia.
  unfold cond_Zopp.
  set (a := fst (shl_align px ex ez)) in *.
  set (b := fst (shl_align py ey ez)) in *.
  change (Z.pos a + Z.pos b) with (Z.pos (a + b)).
  unfold binary_normalize, binary_round.
  pose proof (shl_align_spec (a + b) ez
                (fexp prec emax (Z.pos (digits2_pos (a + b)) + ez))) as [He' Hm'].
  destruct (shl_align (a + b) ez _) as [mz ez']. cbn [fst snd] in He', Hm'.
  rewrite <- He' in Hm'. rewrite fexp_eq in He'.
  assert (Hez' : -1074 <= ez' <= ez) by lia.
  (* the value, on the finest grid *)
  set (W := 2 ^ (ez' + 1074)).
  assert (HW : 0 < W) by (apply pow2_pos; lia).
  assert (Hvx : Zpos px * 2 ^ (ex + 1074) = Zpos a * 2 ^ (ez - ez') * W).
  { rewrite Ha. unfold W. rewrite <- !Z.mul_assoc, <- !pow2_split by lia.
    f_equal. f_equal. lia. }
  assert (Hvy : Zpos py * 2 ^ (ey + 1074) = Zpos b * 2 ^ (ez - ez') * W).
  { rewrite Hb. unfold W. rewrite <- !Z.mul_assoc, <- !pow2_split by lia.
    f_equal. f_equal. lia. }
  assert (Hv : Zpos px * 2 ^ (ex + 1074) + Zpos py * 2 ^ (ey + 1074)
               = Zpos mz * W).
  { rewrite Hvx, Hvy, Hm', Pos2Z.inj_add. ring. }
  rewrite Hv in *.
  assert (HPW : 2 ^ (-26 - ez') * W = ulp26).
  { unfold W, ulp26. rewrite <- pow2_split by lia. f_equal. lia. }
  assert (HQW : 2 ^ (-26 + 53 - ez') * W = top27).
  { unfold W, top27. rewrite <- pow2_split by lia. f_equal. lia. }
  assert (HWle : W <= ulp26) by (unfold W, ulp26; apply Z.pow_le_mono_r; lia).
  destruct (binary_round_aux_one_ulp (-26) (Zpos mz) ez' loc_Exact)
    as (m2 & e2 & Hres & Hm2 & He2 & Hlo & Hhi); try lia.
  { apply scale_le with (w := W); [exact HW|].
    rewrite !Z.mul_add_distr_r, HPW, HQW. lia. }
  rewrite Hres.
  exists (m2 * 2 ^ (e2 + 1074)). split.
  - exists m2, e2. repeat split; try reflexivity; lia.
  - assert (HD : 2 ^ (e2 + 1074) = 2 ^ (e2 - ez') * W).
    { unfold W. rewrite <- pow2_split by lia. f_equal. lia. }
    assert (HDle : 2 ^ (e2 + 1074) <= ulp26)
      by (unfold ulp26; apply Z.pow_le_mono_r; lia).
    rewrite HD in *.
    set (D := 2 ^ (e2 - ez')) in *.
    assert (L1 : (m2 - 1) * D * W <= Z.pos mz * W)
      by (apply Z.mul_le_mono_nonneg_r; lia).
    assert (L2 : (Z.pos mz + 1) * W <= (m2 + 1) * D * W)
      by (apply Z.mul_le_mono_nonneg_r; lia).
    replace ((m2 - 1) * D * W) with (m2 * (D * W) - D * W) in L1 by ring.
    replace ((m2 + 1) * D * W) with (m2 * (D * W) + D * W) in L2 by ring.
    replace ((Z.pos mz + 1) * W) with (Z.pos mz * W + W) in L2 by ring.
    lia.
Qed.

Lemma one_pos : 0 < one.
Proof. unfold one. apply pow2_pos. lia. Qed.

Lemma one_ulp26 : one = 2 ^ 26 * ulp26.
Proof. unfold one, ulp26. rewrite <- pow2_split by lia. reflexivity. Qed.

Lemma top27_one : top27 = 2 ^ 27 * one.
Proof. unfold one, top27. rewrite <- pow2_split by lia. reflexivity. Qed.

Lemma of_Z_100 : of_Z 100 = S754_finite false 7036874417766400 (-46).
Proof. vm_compute. reflexivity. Qed.

Lemma parseFloat_0 : parseFloat 0 = S754_zero false.
Proof. vm_compute. reflexivity. Qed.

(** [parseFloat] of a DECIMAL(10,2) value that is not negative is within
    2^-26 of the decimal. *)
Lemma parseFloat_grid (c : Z) :
  0 <= c <= 10 ^ 10 ->
  exists v,
    grid (parseFloat c) v /\
    c * one - 100 * ulp26 <= 100 * v <= c * one + 100 * ulp26.
Proof.
  intros Hc. pose proof ulp26_pos as Hu. pose proof one_pos as Ho.
  destruct (Z.eq_dec c 0) as [-> | Hc0].
  { rewrite parseFloat_0. exists 0. split; [apply grid_zero | lia]. }
  destruct (of_Z_exact c) as (mc & ec & Hof & Hec & Hecd & Hmc & Hmclt).
  { split; [lia|]. apply Z.le_lt_trans with (10 ^ 10); [lia | reflexivity]. }
  assert (Hdc : Zdigits2 c <= 34).
  { apply Zdigits2_bound; [lia | lia |].
    apply Z.le_lt_trans with (10 ^ 10); [lia | reflexivity]. }
  assert (Hd1 : Zdigits2 (Zpos mc) <= 53)
    by (apply Zdigits2_bound; [lia | lia | exact Hmclt]).
  unfold parseFloat, div. rewrite Hof, of_Z_100.
  unfold SFdiv. cbn [xorb]. unfold SFdiv_core_binary.
  change (Zdigits2 7036874417766400) with 53.
  set (d1 := Zdigits2 (Z.pos mc)) in *.
  set (e' := Z.min (fexp prec emax (d1 + ec - (53 + -46))) (ec - -46)).
  assert (He' : -1074 <= e' <= -26) by (unfold e'; rewrite fexp_eq; lia).
  set (s := ec - -46 - e').
  assert (Hs : 0 <= s) by (unfold s, e'; lia).
  set (m' := match s with
             | 0 => Z.pos mc
             | Z.pos _ => Z.shiftl (Z.pos mc) s
             | Z.neg _ => 0
             end).
  assert (Hm' : m' = Zpos mc * 2 ^ s).
  { unfold m'. destruct s as [|p|p] eqn:Es; [simpl; lia | | lia].
    rewrite Z.shiftl_mul_pow2 by lia. reflexivity. }
  pose proof (Z_div_mod m' 7036874417766400 ltac:(lia)) as Hdiv.
  destruct (Z.div_eucl m' 7036874417766400) as [q r].
  destruct Hdiv as [Hq Hr].
  (* 100 q <= c 2^(-e') < 100 (q + 1) *)
  assert (Hm'c : m' = c * 2 ^ 46 * 2 ^ (- e')).
  { rewrite Hm', Hmc. rewrite <- !Z.mul_assoc, <- !pow2_split by lia.
    f_equal. f_equal. unfold s. lia. }
  assert (H100 : 7036874417766400 = 100 * 2 ^ 46) by reflexivity.
  set (E := 2 ^ (- e')) in *.
  assert (HE : 0 < E) by (apply pow2_pos; lia).
  assert (Hql : 100 * q <= c * E) by nia.
  assert (Hqh : c * E < 100 * (q + 1)) by nia.
  assert (Hq0 : 0 <= q) by nia.
  set (P := 2 ^ (-26 - e')).
  assert (HP : 1 <= P) by (apply pow2_ge_1; lia).
  assert (HEP : E = 2 ^ 26 * P).
  { unfold E, P. rewrite <- pow2_split by lia. f_equal. lia. }
  assert (HQP : 2 ^ (-26 + 53 - e') = 2 ^ 53 * P).
  { unfold P. rewrite <- pow2_split by lia. f_equal. lia. }
  destruct (binary_round_aux_one_ulp (-26) q e' (new_location 7036874417766400 r))
    as (m2 & e2 & Hres & Hm2 & He2 & Hlo & Hhi); try lia.
  { fold P. rewrite HQP. rewrite HEP in Hql.
    assert (q <= 10 ^ 8 * 2 ^ 26 * P) by nia.
    change (10 ^ 8 * 2 ^ 26) with 6710886400000000 in *.
    change (2 ^ 53) with 9007199254740992. lia. }
  rewrite Hres.
  exists (m2 * 2 ^ (e2 + 1074)). split.
  - exists m2, e2. repeat split; try reflexivity; lia.
  - set (W := 2 ^ (e' + 1074)).
    assert (HW : 0 < W) by (apply pow2_pos; lia).
    assert (HoneW : one = E * W).
    { unfold one, E, W. rewrite <- pow2_split by lia. f_equal. lia. }
    assert (HD : 2 ^ (e2 + 1074) = 2 ^ (e2 - e') * W).
    { unfold W. rewrite <- pow2_split by lia. f_equal. lia. }
    assert (HDle : 2 ^ (e2 + 1074) <= ulp26)
      by (unfold ulp26; apply Z.pow_le_mono_r; lia).
    rewrite HD in *.
    set (D := 2 ^ (e2 - e')) in *.
    assert (L1 : (m2 - 1) * D * W <= q * W)
      by (apply Z.mul_le_mono_nonneg_r; lia).
    assert (L2 : (q + 1) * W <= (m2 + 1) * D * W)
      by (apply Z.mul_le_mono_nonneg_r; lia).
    assert (L3 : 100 * q * W <= c * E * W)
      by (apply Z.mul_le_mono_nonneg_r; lia).
    assert (L4 : c * E * W <= 100 * (q + 1) * W)
      by (apply Z.mul_le_mono_nonneg_r; lia).
    replace (c * E * W) with (c * one) in L3, L4 by (rewrite HoneW; ring).
    replace ((m2 - 1) * D * W) with (m2 * (D * W) - D * W) in L1 by ring.
    replace ((m2 + 1) * D * W) with (m2 * (D * W) + D * W) in L2 by ring.
    replace ((q + 1) * W) with (q * W + W) in L2 by ring.
    replace (100 * q * W) with (100 * (q * W)) in L3 by ring.
    replace (100 * (q + 1) * W) with (100 * (q * W) + 100 * W) in L4 by ring.
    lia.
Qed.

Lemma hundredths_nonneg l :
  (forall i, In i l -> 0 <= OrderItem.subtotal i) -> 0 <= hundredths l.
Proof.
  unfold hundredths. induction l as [|x l IH]; simpl; intros H; [lia|].
  specialize (IH (fun i Hi => H i (or_intror Hi))).
  specialize (H x (or_introl eq_refl)). lia.
Qed.

(** The running sum of [sumSubtotals] stays within 2^-26 per operation of
    the decimal sum. *)
Lemma sum_grid (l : list OrderItem.t) :
  forall (acc : Number) (va S0 k : Z),
    grid acc va ->
    0 <= k -> 0 <= S0 ->
    S0 * one - k * (200 * ulp26) <= 100 * va <= S0 * one + k * (200 * ulp26) ->
    (forall i, In i l -> 0 <= OrderItem.subtotal i) ->
    S0 + hundredths l <= 10 ^ 10 ->
    k + Z.of_nat (List.length l) <= 100000 ->
    exists v,
      grid (fold_left
              (fun sum item => add sum (parseFloat (OrderItem.subtotal item)))
              l acc) v /\
      let total := S0 + hundredths l in
      let n := k + Z.of_nat (List.length l) in
      total * one - n * (200 * ulp26) <= 100 * v <= total * one + n * (200 * ulp26).
Proof.
  pose proof ulp26_pos as Hu. pose proof one_pos as Ho.
  pose proof one_ulp26 as Hou. pose proof top27_one as Hto.
  induction l as [|x l IH]; intros acc va S0 k Hg Hk HS0 Hva Hpos Hsum Hlen.
  - exists va. split; [exact Hg|]. unfold hundredths. simpl.
    rewrite !Z.add_0_r. exact Hva.
  - assert (Hx : 0 <= OrderItem.subtotal x) by (apply Hpos; left; reflexivity).
    assert (Hl : 0 <= hundredths l)
      by (apply hundredths_nonneg; intros i Hi; apply Hpos; right; exact Hi).
    assert (Hhx : hundredths (x :: l) = OrderItem.subtotal x + hundredths l)
      by reflexivity.
    rewrite Hhx in *.
    assert (Hlx : Z.of_nat (List.length (x :: l)) = 1 + Z.of_nat (List.length l))
      by (cbn [List.length]; lia).
    rewrite Hlx in *.
    set (c := OrderItem.subtotal x) in *.
    destruct (parseFloat_grid c) as (vp & Hgp & Hvp); [lia|].
    set (U := 200 * ulp26) in *.
    assert (HkU : 0 <= k * U) by (apply Z.mul_nonneg_nonneg; lia).
    assert (HkU' : k * U <= 100000 * U)
      by (apply Z.mul_le_mono_nonneg_r; lia).
    assert (Hc1 : (S0 + c) * one <= 10 ^ 10 * one)
      by (apply Z.mul_le_mono_nonneg_r; lia).
    change (10 ^ 10) with 10000000000 in *.
    change (2 ^ 26) with 67108864 in *.
    change (2 ^ 27) with 134217728 in *.
    destruct (add_grid acc (parseFloat c) va vp Hg Hgp) as (vz & Hgz & Hvz).
    { replace ((S0 + c) * one) with (S0 * one + c * one) in Hc1 by ring.
      unfold U in *. lia. }
    cbn [fold_left]. fold c.
    assert (Hva' : (S0 + c) * one - (k + 1) * U <= 100 * vz
                   <= (S0 + c) * one + (k + 1) * U).
    { replace ((S0 + c) * one) with (S0 * one + c * one) by ring.
      replace ((k + 1) * U) with (k * U + U) by ring.
      unfold U in *. lia. }
    destruct (IH (add acc (parseFloat c)) vz (S0 + c) (k + 1) Hgz
                 ltac:(lia) ltac:(lia) Hva'
                 (fun i Hi => Hpos i (or_intror Hi)) ltac:(lia) ltac:(lia))
      as (v & Hgv & Hv).
    exists v. split; [exact Hgv|].
    cbn zeta in *.
    replace (S0 + (c + hundredths l)) with (S0 + c + hundredths l) by ring.
    replace (k + (1 + Z.of_nat (List.length l)))
      with (k + 1 + Z.of_nat (List.length l)) by ring.
    exact Hv.
Qed.

(** A Number on the grid that is within half a hundredth of [c] hundredths
    is formatted as [c]. *)
Lemma toFixed2_grid (f : Number) (v c : Z) :
  grid f v -> 0 <= c ->
  2 * c * one - one <= 200 * v < 2 * c * one + one ->
  toFixed2 f = Digits false c.
Proof.
  intros (m & e & -> & Hm & He & ->) Hc Hv.
  pose proof one_pos as Ho.
  set (W := 2 ^ (e + 1074)) in *.
  assert (HW : 0 < W) by (apply pow2_pos; lia).
  assert (HE : 0 < 2 ^ (- e)) by (apply pow2_pos; lia).
  assert (HoneW : one = 2 ^ (- e) * W).
  { unfold one, W. rewrite <- pow2_split by lia. f_equal. lia. }
  assert (H2 : 2 ^ (1 - e) = 2 * 2 ^ (- e)).
  { replace (1 - e) with (1 + - e) by lia. rewrite pow2_split by lia.
    reflexivity. }
  set (E := 2 ^ (- e)) in *.
  destruct m as [|p|p]; [| |lia]; cbn [float_of toFixed2].
  - f_equal.
    destruct (Z.eq_dec c 0) as [->|Hc0]; [reflexivity|].
    exfalso. rewrite Z.mul_0_l, Z.mul_0_r in Hv.
    assert (1 * one <= c * one) by (apply Z.mul_le_mono_nonneg_r; lia).
    lia.
  - replace (0 <=? e) with false by (symmetry; apply Z.leb_gt; lia).
    f_equal. symmetry.
    fold E. rewrite H2.
    apply Z.div_unique with (200 * Z.pos p + E - 2 * E * c); [|ring].
    left.
    assert (L1 : 2 * E * c <= 200 * Z.pos p + E).
    { apply Z.mul_le_mono_pos_r with W; [exact HW|].
      replace (2 * E * c * W) with (2 * c * (E * W)) by ring.
      replace ((200 * Z.pos p + E) * W) with (200 * (Z.pos p * W) + E * W) by ring.
      rewrite <- HoneW. lia. }
    assert (L2 : 200 * Z.pos p + E < 2 * E * c + 2 * E).
    { apply Z.mul_lt_mono_pos_r with W; [exact HW|].
      replace ((2 * E * c + 2 * E) * W) with (2 * c * (E * W) + 2 * (E * W)) by ring.
      replace ((200 * Z.pos p + E) * W) with (200 * (Z.pos p * W) + E * W) by ring.
      rewrite <- HoneW. lia. }
    lia.
Qed.

(** Within the bounds the binary sum of the item subtotals, formatted, is
    their decimal sum. *)
Lemma within_bounds_sums_exactly (l : list OrderItem.t) :
  within_bounds l -> sums_exactly l.
Proof.
  intros (Hpos & Hsum & Hlen).
  pose proof ulp26_pos as Hu. pose proof one_pos as Ho.
  pose proof one_ulp26 as Hou.
  destruct (sum_grid l zero 0 0 0 grid_zero ltac:(lia) ltac:(lia) ltac:(lia)
                     Hpos ltac:(lia) ltac:(lia)) as (v & Hg & Hv).
  unfold sums_exactly, OrderController.sumSubtotals.
  cbn zeta in Hv. rewrite !Z.add_0_l in Hv.
  apply toFixed2_grid with v; [exact Hg | apply hundredths_nonneg; exact Hpos |].
  set (n := Z.of_nat (List.length l)) in *.
  set (total := hundredths l) in *.
  assert (Hn : n * (200 * ulp26) <= 100000 * (200 * ulp26))
    by (apply Z.mul_le_mono_nonneg_r; lia).
  change (2 ^ 26) with 67108864 in Hou.
  replace (2 * total * one) with (2 * (total * one)) by ring.
  lia.
Qed.

Lemma by_guest_within_bounds (g : nat) (l : list OrderItem.t) :
  within_bounds l -> within_bounds (by_guest g l).
Proof.
  intros (Hpos & Hsum & Hlen).
  assert (Hsub : forall i, In i (by_guest g l) -> 0 <= OrderItem.subtotal i).
  { intros i Hi. apply Hpos. unfold by_guest in Hi.
    apply filter_In in Hi. tauto. }
  split; [exact Hsub|].
  assert (H : hundredths (by_guest g l) <= hundredths l /\
              Z.of_nat (List.length (by_guest g l)) <= Z.of_nat (List.length l)).
  { clear Hsum Hlen Hsub. unfold hundredths, by_guest.
    induction l as [|x l IH]; [simpl; lia|].
    specialize (IH (fun i Hi => Hpos i (or_intror Hi))).
    specialize (Hpos x (or_introl eq_refl)).
    cbn [filter]. destruct (Nat.eqb (OrderItem.added_by_guest_id x) g);
      cbn [map Zsum fold_right List.length]; unfold Zsum in *; lia. }
  lia.
Qed.

Local Open Scope string_scope.

(* ===================================================================== *)
(** ** Totals *)
(* ===================================================================== *)










Section Amounts.

Variable items : list OrderItem.t.
Variable r : Restaurant.t.
Hypothesis items_nonneg : forall i, In i items -> 0 <= OrderItem.subtotal i.
Hypothesis tax_nonneg : 0 <= Restaurant.tax_rate r.
Hypothesis service_nonneg : 0 <= Restaurant.service_charge_rate r.


End Amounts.



(* ===================================================================== *)
(** ** The bill split *)
(* ===================================================================== *)

Module BillSplit.

Import OrderService.

(** *** Grouping by guest *)

Lemma lookupGuest_setGuest e t g :
  lookupGuest g (setGuest e t)
  = if Nat.eqb (guestId e) g then Some e else lookupGuest g t.
Proof.
  induction t as [|x t IH]; simpl.
  - reflexivity.
  - destruct (Nat.eqb (guestId x) (guestId e)) eqn:Hxe.
    + apply Nat.eqb_eq in Hxe. simpl. rewrite Hxe.
      destruct (Nat.eqb (guestId e) g); reflexivity.
    + destruct (Nat.ltb (guestId e) (guestId x)); simpl.
      * reflexivity.
      * rewrite IH. destruct (Nat.eqb (guestId x) g) eqn:Hxg; [|reflexivity].
        apply Nat.eqb_eq in Hxg. subst g. rewrite Nat.eqb_sym, Hxe. reflexivity.
Qed.

Lemma keys_setGuest e t g :
  In g (keys (setGuest e t)) <-> g = guestId e \/ In g (keys t).
Proof.
  unfold keys. induction t as [|x t IH]; simpl.
  - intuition.
  - destruct (Nat.eqb (guestId x) (guestId e)) eqn:Hxe.
    + apply Nat.eqb_eq in Hxe. simpl. rewrite Hxe. intuition.
    + destruct (Nat.ltb (guestId e) (guestId x)); simpl.
      * intuition.
      * rewrite IH. intuition.
Qed.

Lemma sorted_setGuest e t :
  StronglySorted lt (keys t) -> StronglySorted lt (keys (setGuest e t)).
Proof.
  unfold keys. induction t as [|x t IH]; simpl; intros Hs.
  - constructor; constructor.
  - inversion Hs as [|a l Hs' Hall]; subst.
    destruct (Nat.eqb (guestId x) (guestId e)) eqn:Hxe.
    + apply Nat.eqb_eq in Hxe. simpl. rewrite <- Hxe. exact Hs.
    + apply Nat.eqb_neq in Hxe.
      destruct (Nat.ltb (guestId e) (guestId x)) eqn:Hlt; simpl.
      * apply Nat.ltb_lt in Hlt. constructor; [exact Hs|].
        constructor; [exact Hlt|].
        rewrite Forall_forall in *. intros y Hy. specialize (Hall y Hy). lia.
      * apply Nat.ltb_ge in Hlt. constructor; [apply IH; exact Hs'|].
        rewrite Forall_forall in *. intros y Hy.
        apply (keys_setGuest e t y) in Hy. destruct Hy as [-> | Hy].
        -- lia.
        -- apply Hall. exact Hy.
Qed.

Lemma sorted_NoDup (l : list nat) : StronglySorted lt l -> NoDup l.
Proof.
  induction 1 as [|a l Hs IH Hall]; constructor; [|exact IH].
  intros Hin. rewrite Forall_forall in Hall. specialize (Hall a Hin). lia.
Qed.

Lemma lookupGuest_In g t e :
  lookupGuest g t = Some e -> In e t /\ guestId e = g.
Proof.
  induction t as [|x t IH]; simpl; [discriminate|].
  destruct (Nat.eqb (guestId x) g) eqn:Hx.
  - intros H; inversion H; subst. apply Nat.eqb_eq in Hx. auto.
  - intros H. destruct (IH H). auto.
Qed.

Lemma lookupGuest_None g t : lookupGuest g t = None -> ~ In g (keys t).
Proof.
  unfold keys. induction t as [|x t IH]; simpl; [tauto|].
  destruct (Nat.eqb (guestId x) g) eqn:Hx; [discriminate|].
  apply Nat.eqb_neq in Hx. intros H [E|Hin]; [contradiction|]. exact (IH H Hin).
Qed.

Lemma In_lookupGuest e t :
  NoDup (keys t) -> In e t -> lookupGuest (guestId e) t = Some e.
Proof.
  unfold keys. induction t as [|x t IH]; simpl; intros Hnd Hin; [contradiction|].
  inversion Hnd as [|a l Hnotin Hnd']; subst.
  destruct Hin as [-> | Hin].
  - rewrite Nat.eqb_refl. reflexivity.
  - destruct (Nat.eqb (guestId x) (guestId e)) eqn:Hx.
    + apply Nat.eqb_eq in Hx. exfalso. apply Hnotin. rewrite Hx.
      apply in_map. exact Hin.
    + apply IH; assumption.
Qed.

Lemma filter_none {A} (f : A -> bool) (l : list A) :
  (forall x, In x l -> f x = false) -> filter f l = [].
Proof.
  induction l as [|x l IH]; simpl; intros H; [reflexivity|].
  rewrite (H x (or_introl eq_refl)). apply IH. intros y Hy. apply H. right; exact Hy.
Qed.

Lemma sumSubtotals_snoc l x :
  OrderController.sumSubtotals (l ++ [x])
  = add (OrderController.sumSubtotals l) (parseFloat (OrderItem.subtotal x)).
Proof. unfold OrderController.sumSubtotals. rewrite fold_left_app. reflexivity. Qed.

Lemma by_guest_snoc g l x :
  by_guest g (l ++ [x])
  = (by_guest g l ++
     if Nat.eqb (OrderItem.added_by_guest_id x) g then [x] else [])%list.
Proof. unfold by_guest. rewrite filter_app. reflexivity. Qed.

Lemma grouped_nil w : grouped w [] [].
Proof. split; [constructor|]. intros g. simpl. tauto. Qed.

Lemma grouped_step w done t item guest m :
  grouped w done t ->
  findMenuItemByPk (OrderItem.menu_item_id item) w = Some m ->
  grouped w (done ++ [item])
          (addToGuest (OrderGuest.guest_name guest) (MenuItem.name m) item t).
Proof.
  intros [Hs Hg] Hm. unfold addToGuest.
  set (gi := OrderItem.added_by_guest_id item).
  split.
  - apply sorted_setGuest. exact Hs.
  - intros g. rewrite lookupGuest_setGuest. rewrite map_app, by_guest_snoc.
    fold gi.
    assert (Hkey : guestId (match lookupGuest gi t with
                            | Some e => e
                            | None => mkGuestTotal gi (OrderGuest.guest_name guest) [] zero
                            end) = gi).
    { destruct (lookupGuest gi t) as [e|] eqn:He; [|reflexivity].
      apply lookupGuest_In in He. tauto. }
    cbn [guestId]. rewrite Hkey.
    destruct (Nat.eqb gi g) eqn:Hgi.
    + apply Nat.eqb_eq in Hgi. subst g.
      specialize (Hg gi). cbn [items g_subtotal].
      split; [apply in_or_app; right; left; reflexivity|].
      rewrite map_app, sumSubtotals_snoc. cbn [map].
      assert (Hdata : itemDataOf w item
                      = mkItemData (MenuItem.name m) (OrderItem.quantity item)
                          (parseFloat (OrderItem.unit_price item))
                          (parseFloat (OrderItem.subtotal item))).
      { unfold itemDataOf. rewrite Hm. reflexivity. }
      rewrite Hdata.
      destruct (lookupGuest gi t) as [e|] eqn:He.
      * destruct Hg as (_ & Hi & Hsub). rewrite Hi, Hsub. split; reflexivity.
      * cbn [items g_subtotal].
        assert (Hnil : by_guest gi done = []).
        { unfold by_guest. apply filter_none. intros i Hi.
          apply Nat.eqb_neq. intros E. apply Hg. rewrite <- E.
          apply in_map. exact Hi. }
        rewrite Hnil. split; reflexivity.
    + apply Nat.eqb_neq in Hgi. rewrite app_nil_r.
      specialize (Hg g).
      destruct (lookupGuest g t) as [e|].
      * destruct Hg as (Hin & Hi & Hsub).
        split; [apply in_or_app; left; exact Hin|]. split; assumption.
      * intros Hin. apply in_app_or in Hin. destruct Hin as [Hin|[E|[]]].
        -- exact (Hg Hin).
        -- apply Hgi. exact E.
Qed.

Lemma groupByGuest_grouped w l : forall done t t',
  grouped w done t ->
  groupByGuest w l t = Some t' ->
  grouped w (done ++ l) t'.
Proof.
  induction l as [|item l IH]; simpl; intros done t t' Hinv H.
  - inversion H; subst. rewrite app_nil_r. exact Hinv.
  - destruct (findGuestByPk (OrderItem.added_by_guest_id item) w) as [guest|];
      [|discriminate H].
    destruct (findMenuItemByPk (OrderItem.menu_item_id item) w) as [m|] eqn:Hm;
      [|discriminate H].
    replace (done ++ item :: l)%list with ((done ++ [item]) ++ l)%list
      by (rewrite <- app_assoc; reflexivity).
    eapply IH; [|exact H]. apply grouped_step; assumption.
Qed.

(** *** The decimal sums *)

Lemma indicator_sum (ks : list nat) (g : nat) (c : Z) :
  NoDup ks -> In g ks ->
  Zsum (map (fun k => if Nat.eqb g k then c else 0) ks) = c.
Proof.
  induction ks as [|k ks IH]; simpl; intros Hnd Hin; [contradiction|].
  inversion Hnd as [|a l Hnotin Hnd']; subst.
  destruct (Nat.eqb g k) eqn:Hgk.
  - apply Nat.eqb_eq in Hgk. subst k.
    assert (Hz : Zsum (map (fun k => if Nat.eqb g k then c else 0) ks) = 0).
    { clear IH Hin Hnd Hnd'. induction ks as [|k ks IH]; simpl; [reflexivity|].
      destruct (Nat.eqb g k) eqn:E.
      - apply Nat.eqb_eq in E. subst k. exfalso. apply Hnotin. left; reflexivity.
      - rewrite IH; [reflexivity|]. intros H. apply Hnotin. right; exact H. }
    rewrite Hz. lia.
  - apply Nat.eqb_neq in Hgk. destruct Hin as [E|Hin]; [congruence|].
    rewrite (IH Hnd' Hin). lia.
Qed.

(** Every item is counted with exactly one guest. *)
Lemma hundredths_by_guest (ks : list nat) (l : list OrderItem.t) :
  NoDup ks ->
  (forall i, In i l -> In (OrderItem.added_by_guest_id i) ks) ->
  Zsum (map (fun g => hundredths (by_guest g l)) ks) = hundredths l.
Proof.
  intros Hnd. induction l as [|x l IH]; intros Hcover.
  - unfold hundredths, by_guest. simpl. clear Hnd Hcover.
    induction ks as [|k ks IHk]; simpl; [reflexivity|].
    rewrite IHk. reflexivity.
  - assert (Hsplit : forall g,
              hundredths (by_guest g (x :: l))
              = (if Nat.eqb (OrderItem.added_by_guest_id x) g
                 then OrderItem.subtotal x else 0)
                + hundredths (by_guest g l)).
    { intros g. unfold hundredths, by_guest. simpl.
      destruct (Nat.eqb (OrderItem.added_by_guest_id x) g); simpl; lia. }
    assert (Hadd : forall (f h : nat -> Z) ks',
              Zsum (map (fun g => f g + h g) ks')
              = Zsum (map f ks') + Zsum (map h ks')).
    { intros f h ks'. induction ks' as [|k ks' IHk]; simpl; [reflexivity|].
      rewrite IHk. lia. }
    rewrite (map_ext _ _ Hsplit).
    rewrite (Hadd (fun g => if Nat.eqb (OrderItem.added_by_guest_id x) g
                            then OrderItem.subtotal x else 0)
                  (fun g => hundredths (by_guest g l))).
    rewrite indicator_sum;
      [| exact Hnd | apply Hcover; left; reflexivity].
    rewrite IH by (intros i Hi; apply Hcover; right; exact Hi).
    unfold hundredths. simpl. reflexivity.
Qed.

Lemma round2_exact l :
  sums_exactly l ->
  round2 (OrderController.sumSubtotals l) = parseFloat (hundredths l).
Proof. unfold sums_exactly, round2. intros ->. reflexivity. Qed.

(** C9.  [calculateBillSplit] returns one bill per guest who added an
    item; the bill lists that guest's items and its subtotal, tax, service
    charge and total are computed from the sum of that guest's item
    subtotals alone, with the restaurant's two rates, and rounded one by
    one; the guests' decimal subtotals add up to the order's; and for an
    order of at most 100,000 items, none negative, that sum to at most
    100,000,000.00, each bill's subtotal and the order's subtotal are the
    doubles of those decimal sums: the binary additions lose nothing that
    two decimals show. *)
Theorem bill_split_by_guest :
  forall (w w' : World) (orderId : nat) (split : BillSplit),
    calculateBillSplit orderId w = (Return split, w') ->
    let all := items_of orderId w in
    exists (o : Order.t) (r : Restaurant.t),
      findOrderByPk orderId w = Some o /\
      findRestaurantByPk (Order.restaurant_id o) w = Some r /\
      let taxRate := div (parseFloat (Restaurant.tax_rate r)) (of_Z 100) in
      let serviceChargeRate :=
        div (parseFloat (Restaurant.service_charge_rate r)) (of_Z 100) in
      let guests := map bill_guestId (guestBills split) in
      (* one bill per guest who added an item *)
      NoDup guests /\
      (forall g, In g guests <-> In g (map OrderItem.added_by_guest_id all)) /\
      (* each bill is computed from that guest's items alone *)
      (forall b, In b (guestBills split) ->
         let own := by_guest (bill_guestId b) all in
         let subtotal := OrderController.sumSubtotals own in
         let taxAmount := mul subtotal taxRate in
         let serviceCharge := mul subtotal serviceChargeRate in
         bill_items b = map (itemDataOf w) own /\
         bill_subtotal b = round2 subtotal /\
         bill_taxAmount b = round2 taxAmount /\
         bill_serviceCharge b = round2 serviceCharge /\
         bill_total b = round2 (add (add subtotal taxAmount) serviceCharge)) /\
      (* the guests' subtotals add up to the order's *)
      Zsum (map (fun g => hundredths (by_guest g all)) guests) = hundredths all /\
      (within_bounds all ->
       (forall b, In b (guestBills split) ->
          bill_subtotal b
          = parseFloat (hundredths (by_guest (bill_guestId b) all))) /\
       round2 (OrderController.sumSubtotals all) = parseFloat (hundredths all)).
Proof.
  intros w w' orderId split H all.
  unfold calculateBillSplit, bind, gets, raise, ret in H.
  destruct (findOrderByPk orderId w) as [o|] eqn:Ho; [|discriminate H].
  destruct (groupByGuest w (items_of orderId w) []) as [t|] eqn:Hgr;
    [|discriminate H].
  destruct (findRestaurantByPk (Order.restaurant_id o) w) as [r|] eqn:Hr;
    [|discriminate H].
  inversion H; subst w' split. clear H.
  exists o, r. split; [reflexivity|]. split; [exact Hr|].
  cbn [guestBills].
  pose proof (groupByGuest_grouped w _ [] [] t (grouped_nil w) Hgr) as [Hs Hg].
  simpl in Hg. fold all in Hg.
  assert (Hkeys : map bill_guestId
                    (map (finishGuest (rateOf (Restaurant.tax_rate r))
                                      (rateOf (Restaurant.service_charge_rate r))) t)
                  = keys t).
  { unfold keys. rewrite map_map. reflexivity. }
  rewrite Hkeys.
  pose proof (sorted_NoDup _ Hs) as Hnd.
  assert (Hcover : forall g, In g (keys t)
                             <-> In g (map OrderItem.added_by_guest_id all)).
  { intros g. specialize (Hg g). split; intros Hin.
    - destruct (lookupGuest g t) as [e|] eqn:He; [tauto|].
      exfalso. exact (lookupGuest_None _ _ He Hin).
    - destruct (lookupGuest g t) as [e|] eqn:He; [|contradiction].
      apply lookupGuest_In in He. destruct He as [Hin' <-].
      unfold keys. apply in_map. exact Hin'. }
  assert (Hbills : forall b,
            In b (map (finishGuest (rateOf (Restaurant.tax_rate r))
                                   (rateOf (Restaurant.service_charge_rate r))) t) ->
            exists e, b = finishGuest (rateOf (Restaurant.tax_rate r))
                            (rateOf (Restaurant.service_charge_rate r)) e /\
                      items e = map (itemDataOf w) (by_guest (guestId e) all) /\
                      g_subtotal e
                      = OrderController.sumSubtotals (by_guest (guestId e) all)).
  { intros b Hb. apply in_map_iff in Hb. destruct Hb as (e & <- & He).
    exists e. split; [reflexivity|].
    pose proof (In_lookupGuest e t Hnd He) as Hl.
    specialize (Hg (guestId e)). rewrite Hl in Hg. tauto. }
  split; [exact Hnd|]. split; [exact Hcover|].
  split; [|split].
  - intros b Hb. destruct (Hbills b Hb) as (e & -> & Hi & Hsub).
    cbn [bill_guestId bill_items bill_subtotal bill_taxAmount bill_serviceCharge
         bill_total finishGuest].
    rewrite Hi, Hsub. repeat split; reflexivity.
  - apply hundredths_by_guest; [exact Hnd|].
    intros i Hi. apply Hcover. apply in_map. exact Hi.
  - intros Hall. split.
    + intros b Hb. destruct (Hbills b Hb) as (e & -> & _ & Hsub).
      cbn [bill_guestId bill_subtotal finishGuest].
      rewrite Hsub. apply round2_exact, within_bounds_sums_exactly.
      apply by_guest_within_bounds. exact Hall.
    + apply round2_exact, within_bounds_sums_exactly. exact Hall.
Qed.

Lemma bill_split_by_guest_witness :
  let w := Fixture.ordered in
  let all := items_of 1 w in
  map (fun i => (OrderItem.added_by_guest_id i, OrderItem.subtotal i)) all
  = [(1%nat, 10000); (2%nat, 5000)] /\
  exists split w',
    OrderService.calculateBillSplit 1 w = (Return split, w') /\
    map OrderService.bill_guestId (OrderService.guestBills split)
    = [1%nat; 2%nat] /\
    (forall b, In b (OrderService.guestBills split) ->
       OrderService.bill_taxAmount b
       = OrderService.round2
           (mul (OrderController.sumSubtotals
                   (by_guest (OrderService.bill_guestId b) all))
                (div (parseFloat 1400) (of_Z 100)))) /\
    (forall b, In b (OrderService.guestBills split) ->
       OrderService.bill_subtotal b
       = parseFloat (hundredths (by_guest (OrderService.bill_guestId b) all))) /\
    hundredths (by_guest 1 all) + hundredths (by_guest 2 all) = hundredths all.
Proof.
  intros w all.
  evaluated all Hall.
  split; [rewrite Hall; reflexivity|].
  evaluated (OrderService.calculateBillSplit 1 w) Hrun.
  match type of Hrun with
  | _ = (Return ?split, ?w') =>
      destruct (bill_split_by_guest w w' 1 split Hrun)
        as (o & r & Ho & Hr & Hnd & Hcover & Hbills & Hsum & Hexact);
      exists split, w'
  end.
  split; [exact Hrun|]. split; [reflexivity|].
  assert (Er : r = Fixture.cairoGrill).
  { assert (Ho' : findOrderByPk 1 w
                  = Some (Order.mk 1 1 5 "ORD-20250119-1-001" pending
                                   15000 2100 1800 0 18900 None 1737288000000))
      by (vm_compute; reflexivity).
    rewrite Ho' in Ho. inversion Ho; subst o.
    assert (Hr' : findRestaurantByPk 1 w = Some Fixture.cairoGrill)
      by (vm_compute; reflexivity).
    cbn [Order.restaurant_id] in Hr. rewrite Hr' in Hr. inversion Hr. reflexivity. }
  subst r.
  split; [intros b Hb; exact (proj1 (proj2 (proj2 (Hbills b Hb))))|].
  split.
  - apply Hexact. fold all. rewrite Hall.
    split; [intros i [<-|[<-|[]]]; vm_compute; discriminate|].
    split; vm_compute; discriminate.
  - cbn [OrderService.guestBills map OrderService.bill_guestId
         OrderService.bill_subtotal] in Hsum.
    unfold Zsum in Hsum. cbn [map fold_right] in Hsum. fold all in Hsum. lia.
Defined.

End BillSplit.

(* ===================================================================== *)
(** ** Scanning a QR code *)
(* ===================================================================== *)

(** *** Order numbers *)

Lemma append_cancel_l (a s t : string) : a ++ s = a ++ t -> s = t.
Proof.
  induction a as [|c a IH]; simpl; intros H; [exact H|].
  injection H as H. exact (IH H).
Qed.

Lemma string_of_uint_digits (d : Decimal.uint) :
  Forall (fun c => c <> "-"%char)
         (list_ascii_of_string (NilEmpty.string_of_uint d)).
Proof.
  induction d; simpl; constructor; try assumption; discriminate.
Qed.

Lemma string_of_nat_digits (n : nat) :
  Forall (fun c => c <> "-"%char) (list_ascii_of_string (string_of_nat n)).
Proof.
  unfold string_of_nat, NilZero.string_of_uint.
  destruct (Nat.to_uint n) eqn:E;
    try (rewrite <- E; apply string_of_uint_digits).
  repeat constructor. discriminate.
Qed.

(** Two strings of digits followed by a hyphen and more: the first hyphen
    tells where the digits end. *)
Lemma split_at_hyphen (a a' b b' : string) :
  Forall (fun c => c <> "-"%char) (list_ascii_of_string a) ->
  Forall (fun c => c <> "-"%char) (list_ascii_of_string a') ->
  a ++ String "-" b = a' ++ String "-" b' ->
  a = a' /\ b = b'.
Proof.
  revert a'. induction a as [|c a IH]; intros [|c' a'] Ha Ha' H; simpl in *.
  - injection H as H. split; [reflexivity | exact H].
  - injection H as Hc _. inversion Ha' as [|x l Hx _]; subst. congruence.
  - injection H as Hc _. inversion Ha as [|x l Hx _]; subst. congruence.
  - injection H as Hc H. inversion Ha; inversion Ha'; subst.
    destruct (IH a') as [E1 E2]; try assumption. subst. split; reflexivity.
Qed.

(** The number a string of digits denotes; leading zeros do not count. *)
Lemma digits_of_string_of_nat (n : nat) :
  option_map Nat.of_uint (NilEmpty.uint_of_string (string_of_nat n)) = Some n.
Proof.
  unfold string_of_nat, NilZero.string_of_uint.
  destruct (Nat.to_uint n) eqn:E;
    try (rewrite <- E, NilEmpty.usu; simpl; rewrite DecimalNat.Unsigned.of_to; reflexivity).
  simpl. pose proof (DecimalNat.Unsigned.of_to n) as H. rewrite E in H. simpl in H.
  rewrite <- H. reflexivity.
Qed.

Lemma digits_of_zero_padded (k : nat) (s : string) :
  option_map Nat.of_uint (NilEmpty.uint_of_string (repeat_zero k ++ s))
  = option_map Nat.of_uint (NilEmpty.uint_of_string s).
Proof.
  induction k as [|k IH]; [reflexivity|].
  simpl. rewrite <- IH.
  destruct (NilEmpty.uint_of_string (repeat_zero k ++ s)); reflexivity.
Qed.

Lemma string_of_nat_inj (n m : nat) : string_of_nat n = string_of_nat m -> n = m.
Proof.
  intros H. pose proof (digits_of_string_of_nat n) as Hn.
  rewrite H, digits_of_string_of_nat in Hn. congruence.
Qed.

Lemma padStart0_inj (w n m : nat) :
  padStart0 w (string_of_nat n) = padStart0 w (string_of_nat m) -> n = m.
Proof.
  unfold padStart0. intros H.
  pose proof (digits_of_zero_padded (w - String.length (string_of_nat n))
                (string_of_nat n)) as Hn.
  rewrite H, digits_of_zero_padded, !digits_of_string_of_nat in Hn. congruence.
Qed.

(** X1.  The order number [ORD-<day>-<restaurant>-<sequence>] built by
    [generateOrderNumber] is read back without loss: on the same day two
    order numbers are equal only if they were built for the same
    restaurant id and the same count of the day's orders. *)
Theorem formatOrderNumber_injective :
  forall (clk : Clock) (r r' n n' : nat),
    QRService.formatOrderNumber clk r n = QRService.formatOrderNumber clk r' n' ->
    r = r' /\ n = n'.
Proof.
  intros clk r r' n n' H. unfold QRService.formatOrderNumber in H. cbv zeta in H.
  apply (append_cancel_l "ORD-") in H.
  apply append_cancel_l in H.
  apply (append_cancel_l "-") in H.
  apply split_at_hyphen in H; try apply string_of_nat_digits.
  destruct H as [Hr Hs].
  apply string_of_nat_inj in Hr. apply padStart0_inj in Hs.
  split; [exact Hr | lia].
Qed.

Lemma formatOrderNumber_injective_witness :
  QRService.formatOrderNumber Fixture.clk 1 7
  = QRService.formatOrderNumber Fixture.clk 1 7 /\
  (1 = 1 /\ 7 = 7)%nat.
Proof.
  split; [reflexivity|].
  exact (formatOrderNumber_injective Fixture.clk 1 1 7 7 eq_refl).
Defined.

(** *** The table session *)

Lemma most_recent_latest l o :
  most_recent l = Some o ->
  forall x, In x l -> Order.created_at x <= Order.created_at o.
Proof.
  revert o. induction l as [|a l IH]; intros o H x Hx; [contradiction|].
  simpl in H. destruct (most_recent l) as [o'|] eqn:E.
  - destruct (Order.created_at a <? Order.created_at o')%Z eqn:Hlt;
      injection H as <-.
    + apply Z.ltb_lt in Hlt. destruct Hx as [<-|Hx]; [lia|].
      exact (IH _ eq_refl _ Hx).
    + apply Z.ltb_ge in Hlt. destruct Hx as [<-|Hx]; [lia|].
      specialize (IH _ eq_refl _ Hx). lia.
  - injection H as <-. apply Scans.most_recent_None in E. subst l.
    destruct Hx as [<-|[]]. lia.
Qed.

Lemma joinable_filter tableId restaurantId o :
  (Nat.eqb (Order.table_id o) tableId
   && Nat.eqb (Order.restaurant_id o) restaurantId
   && includes QRService.sessionStatuses (status_name (Order.status o))) = true
  <-> joinable tableId restaurantId o.
Proof.
  unfold joinable. rewrite !andb_true_iff, !Nat.eqb_eq.
  assert (Hs : includes QRService.sessionStatuses (status_name (Order.status o))
               = true <-> In (Order.status o) [pending; confirmed; preparing]).
  { destruct (Order.status o); simpl; split; intros H;
      try reflexivity; try discriminate H; try tauto;
      repeat (destruct H as [H|H]; try discriminate H); contradiction. }
  rewrite Hs. tauto.
Qed.

Lemma findActiveOrder_None tableId restaurantId w :
  QRService.findActiveOrder tableId restaurantId w = None <->
  forall o, In o (orders w) -> ~ joinable tableId restaurantId o.
Proof.
  unfold QRService.findActiveOrder. split.
  - intros H o Ho Hj. apply Scans.most_recent_None in H.
    assert (Hin : In o (filter (fun o => Nat.eqb (Order.table_id o) tableId
                       && Nat.eqb (Order.restaurant_id o) restaurantId
                       && includes QRService.sessionStatuses
                            (status_name (Order.status o))) (orders w))).
    { apply filter_In. split; [exact Ho|]. apply joinable_filter. exact Hj. }
    rewrite H in Hin. contradiction.
  - intros H.
    destruct (most_recent _) as [o|] eqn:E; [|reflexivity].
    apply Scans.most_recent_In in E. apply filter_In in E.
    destruct E as [Ho Hj]. apply joinable_filter in Hj.
    exfalso. exact (H o Ho Hj).
Qed.

Lemma findActiveOrder_Some tableId restaurantId w o :
  QRService.findActiveOrder tableId restaurantId w = Some o ->
  In o (orders w) /\ joinable tableId restaurantId o /\
  forall x, In x (orders w) -> joinable tableId restaurantId x ->
            Order.created_at x <= Order.created_at o.
Proof.
  unfold QRService.findActiveOrder. intros H.
  pose proof (Scans.most_recent_In _ _ H) as Hin.
  apply filter_In in Hin. destruct Hin as [Ho Hj].
  apply joinable_filter in Hj.
  split; [exact Ho|]. split; [exact Hj|].
  intros x Hx Hjx. apply (most_recent_latest _ _ H).
  apply filter_In. split; [exact Hx|]. apply joinable_filter. exact Hjx.
Qed.

(** What one scan does, by the two questions it asks the database. *)
Lemma getOrCreateTableSession_cases clk tableId restaurantId w :
  QRService.getOrCreateTableSession clk tableId restaurantId w
  = match QRService.findActiveOrder tableId restaurantId w with
    | Some o => (Return (QRService.sessionOf o), w)
    | None =>
        let o := fresh_order clk tableId restaurantId w in
        let w1 := snd (Order_create clk restaurantId tableId
                         (Order.order_number o) w) in
        if existsb (fun x => String.eqb (Order.order_number x)
                                        (Order.order_number o)) (orders w)
        then (Raise (Thrown "SequelizeUniqueConstraintError: order_number"), w1)
        else (Return (QRService.sessionOf o),
              snd (Table_update_status occupied tableId w1))
    end.
Proof.
  unfold QRService.getOrCreateTableSession, bind, gets, ret.
  destruct (QRService.findActiveOrder tableId restaurantId w) as [o|];
    [reflexivity|].
  unfold QRService.generateOrderNumber, bind, gets, ret.
  cbv zeta. unfold fresh_order. cbn [Order.order_number].
  unfold Order_create.
  destruct (existsb _ (orders w)); reflexivity.
Qed.

(** X2.  When the table has an order of the restaurant that is pending,
    confirmed or preparing, [getOrCreateTableSession] writes nothing and
    returns the session of such an order that no other such order is
    more recent than. *)
Theorem getOrCreateTableSession_joins_the_latest :
  forall (clk : Clock) (tableId restaurantId : nat) (w : World) (o : Order.t),
    In o (orders w) -> joinable tableId restaurantId o ->
    exists latest,
      QRService.getOrCreateTableSession clk tableId restaurantId w
      = (Return (QRService.sessionOf latest), w) /\
      In latest (orders w) /\ joinable tableId restaurantId latest /\
      forall x, In x (orders w) -> joinable tableId restaurantId x ->
                Order.created_at x <= Order.created_at latest.
Proof.
  intros clk tableId restaurantId w o Ho Hj.
  rewrite getOrCreateTableSession_cases.
  destruct (QRService.findActiveOrder tableId restaurantId w) as [latest|] eqn:E.
  - exists latest. split; [reflexivity|].
    apply findActiveOrder_Some. exact E.
  - exfalso. exact (proj1 (findActiveOrder_None _ _ _) E o Ho Hj).
Qed.

Lemma getOrCreateTableSession_joins_the_latest_witness :
  let w := Fixture.twoGuests in
  let o := Order.mk 1 1 5 "ORD-20250119-1-001" pending 0 0 0 0 0 None
                    1737288000000 in
  In o (orders w) /\ joinable 5 1 o /\
  exists latest,
    QRService.getOrCreateTableSession Fixture.clk 5 1 w
    = (Return (QRService.sessionOf latest), w) /\
    In latest (orders w) /\ joinable 5 1 latest.
Proof.
  intros w o.
  assert (Hin : In o (orders w)) by (vm_compute; left; reflexivity).
  assert (Hj : joinable 5 1 o)
    by (split; [reflexivity|split; [reflexivity|left; reflexivity]]).
  split; [exact Hin|]. split; [exact Hj|].
  destruct (getOrCreateTableSession_joins_the_latest Fixture.clk 5 1 w o Hin Hj)
    as (latest & Hrun & Hl & Hjl & _).
  exists latest. split; [exact Hrun|]. split; [exact Hl | exact Hjl].
Defined.




(** X4.  The field [isNewSession: !activeOrder.order_id] of the session
    that [getOrCreateTableSession] returns is false also for the order it
    has just created: the created row has its key, and no key is 0. *)
Theorem isNewSession_is_never_true :
  forall (clk : Clock) (tableId restaurantId : nat) (w w' : World)
         (s : QRService.TableSession),
    (forall o, In o (orders w) -> Order.order_id o <> 0%nat) ->
    QRService.getOrCreateTableSession clk tableId restaurantId w = (Return s, w') ->
    QRService.isNewSession s = false.
Proof.
  intros clk tableId restaurantId w w' s Hids H.
  rewrite getOrCreateTableSession_cases in H.
  destruct (QRService.findActiveOrder tableId restaurantId w) as [o|] eqn:E.
  - injection H as <- _. apply findActiveOrder_Some in E.
    destruct E as (Ho & _). specialize (Hids o Ho).
    unfold QRService.sessionOf. cbn [QRService.isNewSession].
    apply Nat.eqb_neq. exact Hids.
  - cbv zeta in H. destruct (existsb _ (orders w)); [discriminate H|].
    injection H as <- _. reflexivity.
Qed.

Lemma isNewSession_is_never_true_witness :
  (forall o, In o (orders Fixture.empty) -> Order.order_id o <> 0%nat) /\
  exists s w',
    QRService.getOrCreateTableSession Fixture.clk 5 1 Fixture.empty
    = (Return s, w') /\
    QRService.orderId s = 1%nat /\
    QRService.isNewSession s = false.
Proof.
  assert (H : forall o, In o (orders Fixture.empty) -> Order.order_id o <> 0%nat)
    by (intros o []).
  split; [exact H|].
  evaluated (QRService.getOrCreateTableSession Fixture.clk 5 1 Fixture.empty) Hrun.
  match type of Hrun with
  | _ = (Return ?s, ?w') => exists s, w'
  end.
  split; [exact Hrun|]. split; [reflexivity|].
  exact (isNewSession_is_never_true Fixture.clk 5 1 Fixture.empty _ _ H Hrun).
Defined.

(** *** The scan, step by step *)

Lemma validateQRCode_cases qr w :
  QRService.validateQRCode qr w
  = (match findTableByQR qr w with
     | None => Return (Failure "Invalid QR code")
     | Some table =>
         match findRestaurantByPk (Table.restaurant_id table) w with
         | None => Raise (Thrown "TypeError: table.restaurant is null")
         | Some restaurant =>
             if negb (Restaurant.is_active restaurant)
             then Return (Failure "Restaurant is currently inactive")
             else if TableStatus_eqb (Table.status table) maintenance
             then Return (Failure "Table is under maintenance")
             else Return (Success (QRService.mkQRValidation
                            (Table.table_id table) (Table.table_number table)
                            (Table.status table)
                            (Restaurant.restaurant_id restaurant)
                            (Restaurant.name restaurant)))
         end
     end, w).
Proof.
  unfold QRService.validateQRCode, bind, gets, ret, raise.
  destruct (findTableByQR qr w) as [t|]; [|reflexivity].
  destruct (findRestaurantByPk (Table.restaurant_id t) w) as [r|]; [|reflexivity].
  destruct (negb (Restaurant.is_active r)); [reflexivity|].
  destruct (TableStatus_eqb (Table.status t) maintenance); reflexivity.
Qed.

Lemma TableStatus_eqb_eq a b : TableStatus_eqb a b = true <-> a = b.
Proof. destruct a, b; simpl; split; intros H; try reflexivity; discriminate H. Qed.

Lemma validateQRCode_Success qr w v w' :
  QRService.validateQRCode qr w = (Return (Success v), w') ->
  w' = w /\
  exists table restaurant,
    findTableByQR qr w = Some table /\
    findRestaurantByPk (Table.restaurant_id table) w = Some restaurant /\
    Restaurant.is_active restaurant = true /\
    Table.status table <> maintenance /\
    v = QRService.mkQRValidation
          (Table.table_id table) (Table.table_number table) (Table.status table)
          (Restaurant.restaurant_id restaurant) (Restaurant.name restaurant).
Proof.
  rewrite validateQRCode_cases. intros H.
  destruct (findTableByQR qr w) as [t|] eqn:Ht; [|discriminate H].
  destruct (findRestaurantByPk (Table.restaurant_id t) w) as [r|] eqn:Hr;
    [|discriminate H].
  destruct (Restaurant.is_active r) eqn:Ha; [|discriminate H].
  destruct (TableStatus_eqb (Table.status t) maintenance) eqn:Hm;
    [discriminate H|].
  cbn [negb] in H. injection H as <- <-.
  split; [reflexivity|]. exists t, r.
  split; [reflexivity|]. split; [exact Hr|]. split; [exact Ha|].
  split; [|reflexivity].
  intros E. apply TableStatus_eqb_eq in E. congruence.
Qed.

(** X5.  [validateQRCode] writes nothing, and when it accepts a token
    there is a table with that QR code, not under maintenance, whose
    restaurant exists and is active; the table and restaurant ids it
    returns are those of that table. *)
Theorem validateQRCode_is_sound_and_reads_only :
  forall (qrToken : string) (w : World),
    snd (QRService.validateQRCode qrToken w) = w /\
    forall v, fst (QRService.validateQRCode qrToken w) = Return (Success v) ->
      exists table restaurant,
        In table (tables w) /\ Table.qr_code table = qrToken /\
        In restaurant (restaurants w) /\
        Restaurant.restaurant_id restaurant = Table.restaurant_id table /\
        Restaurant.is_active restaurant = true /\
        Table.status table <> maintenance /\
        QRService.tableId v = Table.table_id table /\
        QRService.restaurantId v = Table.restaurant_id table.
Proof.
  intros qr w. split; [rewrite validateQRCode_cases; reflexivity|].
  intros v H.
  destruct (QRService.validateQRCode qr w) as [res w'] eqn:E.
  cbn [fst] in H. subst res.
  apply validateQRCode_Success in E.
  destruct E as (_ & t & r & Ht & Hr & Ha & Hm & ->).
  exists t, r.
  unfold findTableByQR in Ht. apply find_some in Ht. destruct Ht as [Hin Hq].
  unfold findRestaurantByPk in Hr. apply find_some in Hr.
  destruct Hr as [Hrin Hrid].
  apply String.eqb_eq in Hq. apply Nat.eqb_eq in Hrid.
  split; [exact Hin|]. split; [exact Hq|]. split; [exact Hrin|].
  split; [exact Hrid|]. split; [exact Ha|]. split; [exact Hm|].
  split; [reflexivity|]. exact Hrid.
Qed.

(** *** Guests *)

Lemma OrderGuest_unique_spec orderId guestName sessionToken (l : list OrderGuest.t) :
  existsb (fun g => String.eqb (OrderGuest.session_token g) sessionToken
                    || (Nat.eqb (OrderGuest.order_id g) orderId
                        && String.eqb (OrderGuest.guest_name g) guestName)) l
  = false
  <-> forall g, In g l ->
        OrderGuest.session_token g <> sessionToken /\
        (OrderGuest.order_id g = orderId -> OrderGuest.guest_name g <> guestName).
Proof.
  split.
  - intros H g Hg.
    assert (Hf := proj2 (not_true_iff_false _) H).
    split.
    + intros E. apply Hf. apply existsb_exists. exists g. split; [exact Hg|].
      apply orb_true_iff. left. apply String.eqb_eq. exact E.
    + intros Eo En. apply Hf. apply existsb_exists. exists g. split; [exact Hg|].
      apply orb_true_iff. right. apply andb_true_iff.
      split; [apply Nat.eqb_eq; exact Eo | apply String.eqb_eq; exact En].
  - intros H. apply not_true_iff_false. intros E.
    apply existsb_exists in E. destruct E as (g & Hg & E).
    destruct (H g Hg) as [Ht Hn].
    apply orb_true_iff in E. destruct E as [E|E].
    + apply String.eqb_eq in E. exact (Ht E).
    + apply andb_true_iff in E. destruct E as [Eo En].
      apply Nat.eqb_eq in Eo. apply String.eqb_eq in En. exact (Hn Eo En).
Qed.

Lemma OrderGuest_create_Return orderId guestName sessionToken deviceInfo w g w' :
  OrderGuest_create orderId guestName sessionToken deviceInfo w = (Return g, w') ->
  g = OrderGuest.mk (S (order_guests_seq w)) orderId guestName sessionToken
                    deviceInfo /\
  order_guests w' = (order_guests w ++ [g])%list /\
  order_guests_seq w' = S (order_guests_seq w) /\
  orders w' = orders w /\ tables w' = tables w /\
  restaurants w' = restaurants w /\ menu_items w' = menu_items w /\
  order_items w' = order_items w /\ emitted w' = emitted w /\
  orders_seq w' = orders_seq w /\
  forall x, In x (order_guests w) ->
    OrderGuest.session_token x <> sessionToken /\
    (OrderGuest.order_id x = orderId -> OrderGuest.guest_name x <> guestName).
Proof.
  unfold OrderGuest_create. intros H.
  destruct (existsb _ (order_guests w)) eqn:E; [discriminate H|].
  injection H as <- <-. cbn.
  repeat (split; [reflexivity|]).
  apply OrderGuest_unique_spec. exact E.
Qed.


(** The name a guest joins under. *)
Lemma createGuestSession_cases randomHex orderId guestName deviceInfo w :
  QRService.createGuestSession randomHex orderId guestName deviceInfo w
  = let name :=
      if QRService.noName guestName
      then "Guest " ++ string_of_nat (List.length (guests_of orderId w) + 1)
      else match guestName with Some s => s | None => "" end in
    match OrderGuest_create orderId name randomHex deviceInfo w with
    | (Return g, w') =>
        (Return (QRService.mkGuestSession (OrderGuest.guest_id g)
                   (OrderGuest.guest_name g) (OrderGuest.session_token g)), w')
    | (Raise e, w') => (Raise e, w')
    end.
Proof.
  unfold QRService.createGuestSession, bind, gets, ret, guests_of.
  destruct (QRService.noName guestName); cbv zeta;
    destruct (OrderGuest_create _ _ _ _ w) as [[g|e] w']; reflexivity.
Qed.





(** *** The whole scan *)

Lemma handleQRScan_cases clk randomHex qrToken guestName deviceInfo w :
  QRService.handleQRScan clk randomHex qrToken guestName deviceInfo w
  = match QRService.validateQRCode qrToken w with
    | (Raise e, _) => (Raise e, w)
    | (Return (Failure e), _) => (Return (Failure e), w)
    | (Return (Success v), _) =>
        match QRService.getOrCreateTableSession clk (QRService.tableId v)
                (QRService.restaurantId v) w with
        | (Raise e, w1) => (Raise e, w1)
        | (Return s, w1) =>
            match QRService.createGuestSession randomHex (QRService.orderId s)
                    guestName deviceInfo w1 with
            | (Raise e, w2) => (Raise e, w2)
            | (Return gs, w2) =>
                (Return (Success (QRService.mkScanResult v s gs)),
                 snd (QRService.trackQRScan (QRService.tableId v) w2))
            end
        end
    end.
Proof.
  unfold QRService.handleQRScan, bind.
  pose proof (validateQRCode_cases qrToken w) as Hv.
  destruct (QRService.validateQRCode qrToken w) as [[[v|e]|e] w0];
    injection Hv as _ ->; reflexivity.
Qed.

Lemma trackQRScan_frame tableId w :
  let w' := snd (QRService.trackQRScan tableId w) in
  orders w' = orders w /\ tables w' = tables w /\
  order_guests w' = order_guests w /\ restaurants w' = restaurants w /\
  menu_items w' = menu_items w /\ order_items w' = order_items w /\
  emitted w' = emitted w /\ orders_seq w' = orders_seq w /\
  order_guests_seq w' = order_guests_seq w.
Proof. cbv zeta. repeat split; reflexivity. Qed.

Lemma createGuestSession_Return randomHex orderId guestName deviceInfo w gs w' :
  QRService.createGuestSession randomHex orderId guestName deviceInfo w
  = (Return gs, w') ->
  exists g,
    gs = QRService.mkGuestSession (OrderGuest.guest_id g)
           (OrderGuest.guest_name g) randomHex /\
    OrderGuest.order_id g = orderId /\
    OrderGuest.session_token g = randomHex /\
    order_guests w' = (order_guests w ++ [g])%list /\
    orders w' = orders w /\ tables w' = tables w /\
    restaurants w' = restaurants w /\ emitted w' = emitted w /\
    orders_seq w' = orders_seq w /\
    forall x, In x (order_guests w) -> OrderGuest.session_token x <> randomHex.
Proof.
  rewrite createGuestSession_cases. cbv zeta. intros H.
  destruct (OrderGuest_create _ _ _ _ w) as [[g|e] w1] eqn:E; [|discriminate H].
  injection H as <- <-.
  apply OrderGuest_create_Return in E.
  destruct E as (-> & Hg & _ & Ho & Ht & Hr & _ & _ & He & Hs & Hfresh).
  eexists. split; [reflexivity|]. cbn [OrderGuest.order_id OrderGuest.session_token].
  repeat (split; [first [reflexivity | assumption]|]).
  intros x Hx. exact (proj1 (Hfresh x Hx)).
Qed.

Lemma find_last {A} (p : A -> bool) (l : list A) (x : A) :
  (forall y, In y l -> p y = false) -> p x = true ->
  find p (l ++ [x]) = Some x.
Proof.
  induction l as [|a l IH]; intros Hl Hx; simpl.
  - rewrite Hx. reflexivity.
  - rewrite (Hl a (or_introl eq_refl)).
    apply IH; [|exact Hx]. intros y Hy. apply Hl. right. exact Hy.
Qed.

Lemma find_by_key {A} (key : A -> nat) (l : list A) (x : A) :
  NoDup (map key l) -> In x l ->
  find (fun y => Nat.eqb (key y) (key x)) l = Some x.
Proof.
  induction l as [|a l IH]; intros Hnd Hx; [contradiction|].
  simpl in Hnd. inversion Hnd as [|k ks Hnotin Hnd']; subst.
  simpl. destruct Hx as [->|Hx].
  - rewrite Nat.eqb_refl. reflexivity.
  - destruct (Nat.eqb (key a) (key x)) eqn:E.
    + apply Nat.eqb_eq in E. exfalso. apply Hnotin. rewrite E.
      apply in_map. exact Hx.
    + apply IH; assumption.
Qed.

Lemma find_map_same {A} (p : A -> bool) (f : A -> A) (l : list A) :
  (forall x, p (f x) = p x) ->
  find p (map f l) = option_map f (find p l).
Proof.
  intros Hp. induction l as [|a l IH]; [reflexivity|].
  simpl. rewrite Hp. destruct (p a); [reflexivity | exact IH].
Qed.

Lemma validateGuestSession_accepts tok w g o t :
  findGuestByToken tok w = Some g ->
  findOrderByPk (OrderGuest.order_id g) w = Some o ->
  In (Order.status o) [pending; confirmed; preparing; ready] ->
  findTableByPk (Order.table_id o) w = Some t ->
  QRService.validateGuestSession tok w
  = (Return (Success (QRService.mkGuestValidation
                        (OrderGuest.guest_id g) (OrderGuest.guest_name g)
                        (OrderGuest.order_id g) (Order.order_number o)
                        (Order.status o) (Table.table_number t))), w).
Proof.
  intros Hg Ho Hs Ht.
  unfold QRService.validateGuestSession, bind, gets, ret.
  rewrite Hg, Ho. apply activeStatuses_spec in Hs. rewrite Hs.
  cbn [negb]. rewrite Ht. reflexivity.
Qed.

(** The order a scan resolved to, in the database the scan leaves. *)
Lemma session_order_row clk tableId restaurantId w s w1 :
  order_keys w ->
  QRService.getOrCreateTableSession clk tableId restaurantId w = (Return s, w1) ->
  exists o,
    findOrderByPk (QRService.orderId s) w1 = Some o /\
    s = QRService.sessionOf o /\ joinable tableId restaurantId o /\
    (exists f, tables w1 = map f (tables w) /\
               forall t, Table.table_id (f t) = Table.table_id t /\
                         Table.restaurant_id (f t) = Table.restaurant_id t /\
                         Table.qr_code (f t) = Table.qr_code t /\
                         Table.table_number (f t) = Table.table_number t /\
                         (Table.status (f t) = Table.status t \/
                          Table.status (f t) = occupied)) /\
    order_guests w1 = order_guests w /\ emitted w1 = emitted w /\
    order_keys w1.
Proof.
  intros [Hnd Hseq] H. rewrite getOrCreateTableSession_cases in H.
  destruct (QRService.findActiveOrder tableId restaurantId w) as [o|] eqn:E.
  - injection H as <- <-. apply findActiveOrder_Some in E.
    destruct E as (Ho & Hj & _). exists o.
    split; [apply (find_by_key Order.order_id); assumption|].
    split; [reflexivity|]. split; [exact Hj|].
    split.
    { exists (fun t => t). split; [symmetry; apply map_id|].
      intros t. repeat split; try reflexivity. left. reflexivity. }
    split; [reflexivity|]. split; [reflexivity|]. split; assumption.
  - cbv zeta in H. unfold Order_create in H.
    destruct (existsb _ (orders w)) eqn:Ex; [discriminate H|].
    injection H as Hs Hw. subst s.
    set (o := fresh_order clk tableId restaurantId w) in *.
    assert (Ho : orders w1 = (orders w ++ [o])%list) by (rewrite <- Hw; reflexivity).
    assert (Hq : orders_seq w1 = S (orders_seq w)) by (rewrite <- Hw; reflexivity).
    assert (Ht : tables w1
                 = map (fun t => if Nat.eqb (Table.table_id t) tableId
                                 then Table.set_status occupied t else t)
                       (tables w)) by (rewrite <- Hw; reflexivity).
    assert (Hg : order_guests w1 = order_guests w) by (rewrite <- Hw; reflexivity).
    assert (He : emitted w1 = emitted w) by (rewrite <- Hw; reflexivity).
    clear Hw. exists o.
    split.
    { unfold findOrderByPk. rewrite Ho. apply find_last; [|apply Nat.eqb_refl].
      intros y Hy. apply Nat.eqb_neq. specialize (Hseq y Hy).
      unfold QRService.sessionOf, o, fresh_order.
      cbn [QRService.orderId Order.order_id]. lia. }
    split; [reflexivity|].
    split; [unfold joinable, o, fresh_order; cbn; tauto|].
    split.
    { eexists. split; [exact Ht|]. intros t. cbv beta.
      destruct (Nat.eqb (Table.table_id t) tableId);
        repeat split; try reflexivity; [right | left]; reflexivity. }
    split; [exact Hg|]. split; [exact He|].
    split.
    + rewrite Ho, map_app. cbn [map].
      rewrite <- (rev_involutive (map Order.order_id (orders w) ++ _)).
      apply NoDup_rev. rewrite rev_app_distr. cbn [rev app].
      constructor.
      * rewrite <- in_rev. intros Hin. apply in_map_iff in Hin.
        destruct Hin as (y & Ey & Hy). specialize (Hseq y Hy).
        unfold o, fresh_order in Ey. cbn [Order.order_id] in Ey. lia.
      * apply NoDup_rev. exact Hnd.
    + intros y Hy. rewrite Ho in Hy. rewrite Hq.
      apply in_app_or in Hy. destruct Hy as [Hy|[<-|[]]].
      * specialize (Hseq y Hy). lia.
      * unfold o, fresh_order. cbn [Order.order_id]. lia.
Qed.

Lemma handleQRScan_Success clk randomHex qrToken guestName deviceInfo w r w' :
  QRService.handleQRScan clk randomHex qrToken guestName deviceInfo w
  = (Return (Success r), w') ->
  exists w1 w2,
    QRService.validateQRCode qrToken w
    = (Return (Success (QRService.scan_table r)), w) /\
    QRService.getOrCreateTableSession clk
      (QRService.tableId (QRService.scan_table r))
      (QRService.restaurantId (QRService.scan_table r)) w
    = (Return (QRService.scan_order r), w1) /\
    QRService.createGuestSession randomHex
      (QRService.orderId (QRService.scan_order r)) guestName deviceInfo w1
    = (Return (QRService.scan_guest r), w2) /\
    w' = snd (QRService.trackQRScan
                (QRService.tableId (QRService.scan_table r)) w2).
Proof.
  rewrite handleQRScan_cases. intros H.
  pose proof (validateQRCode_cases qrToken w) as Hv.
  destruct (QRService.validateQRCode qrToken w) as [[[v|e]|e] w0] eqn:E;
    try discriminate H.
  injection Hv as _ ->.
  destruct (QRService.getOrCreateTableSession _ _ _ w) as [[s|e] w1] eqn:Es;
    [|discriminate H].
  destruct (QRService.createGuestSession _ _ _ _ w1) as [[gs|e] w2] eqn:Eg;
    [|discriminate H].
  injection H as <- <-. exists w1, w2. cbn [QRService.scan_table
    QRService.scan_order QRService.scan_guest].
  repeat split; assumption.
Qed.

(** X7.  Round trip of a scan: the session token that a successful
    [handleQRScan] returns is the generated one, and
    [validateGuestSession] accepts it in the state the scan leaves; it
    answers with the guest id, the guest name, the order id, the order
    number and the order status that the scan returned. *)
Theorem scanned_token_opens_the_session :
  forall (clk : Clock) (randomHex qrToken : string)
         (guestName deviceInfo : option string) (w w' : World)
         (r : QRService.ScanResult),
    order_keys w ->
    QRService.handleQRScan clk randomHex qrToken guestName deviceInfo w
    = (Return (Success r), w') ->
    QRService.sessionToken (QRService.scan_guest r) = randomHex /\
    exists tableNumber,
      QRService.validateGuestSession randomHex w'
      = (Return (Success (QRService.mkGuestValidation
                            (QRService.guestId (QRService.scan_guest r))
                            (QRService.guestName (QRService.scan_guest r))
                            (QRService.orderId (QRService.scan_order r))
                            (QRService.orderNumber (QRService.scan_order r))
                            (QRService.status (QRService.scan_order r))
                            tableNumber)), w').
Proof.
  intros clk hex qr name dev w w' r Hkeys H.
  apply handleQRScan_Success in H.
  destruct H as (w1 & w2 & Hv & Hs & Hg & ->).
  destruct r as [v s gs]. cbn [QRService.scan_table QRService.scan_order
    QRService.scan_guest] in *.
  apply validateQRCode_Success in Hv.
  destruct Hv as (_ & t & rr & Ht & _ & _ & _ & ->).
  cbn [QRService.tableId QRService.restaurantId] in *.
  apply (session_order_row _ _ _ _ _ _ Hkeys) in Hs.
  destruct Hs as (o & Ho & -> & Hj & (f & Htabs & Hf) & _ & _ & _).
  apply createGuestSession_Return in Hg.
  destruct Hg as (g & -> & Hgo & Hgt & Hgs & Hord & Htab & _ & _ & _ & Hfresh).
  split; [reflexivity|].
  destruct (trackQRScan_frame (Table.table_id t) w2)
    as (Ho3 & Ht3 & Hg3 & _).
  set (w3 := snd (QRService.trackQRScan (Table.table_id t) w2)) in *.
  assert (Hfg : findGuestByToken hex w3 = Some g).
  { unfold findGuestByToken. rewrite Hg3, Hgs. apply find_last.
    - intros y Hy. apply String.eqb_neq. exact (Hfresh y Hy).
    - apply String.eqb_eq. exact Hgt. }
  assert (Hfo : findOrderByPk (OrderGuest.order_id g) w3 = Some o).
  { rewrite Hgo. unfold findOrderByPk in *. rewrite Ho3, Hord. exact Ho. }
  assert (Hft : exists t', findTableByPk (Order.table_id o) w3 = Some t').
  { unfold findTableByPk. rewrite Ht3, Htab, Htabs.
    rewrite find_map_same by (intros x; rewrite (proj1 (Hf x)); reflexivity).
    destruct Hj as (Hjt & _). rewrite Hjt.
    unfold findTableByQR in Ht. apply find_some in Ht. destruct Ht as [Hin _].
    destruct (find (fun t0 => Nat.eqb (Table.table_id t0) (Table.table_id t))
                   (tables w)) as [t0|] eqn:E.
    - eexists. reflexivity.
    - exfalso. apply (find_none _ _ E) in Hin. rewrite Nat.eqb_refl in Hin.
      discriminate Hin. }
  destruct Hft as (t' & Hft).
  exists (Table.table_number t').
  rewrite (validateGuestSession_accepts hex w3 g o t' Hfg Hfo); [|  | exact Hft].
  - rewrite Hgo. unfold QRService.sessionOf.
    cbn [QRService.guestId QRService.guestName QRService.orderId
         QRService.orderNumber QRService.status]. reflexivity.
  - destruct Hj as (_ & _ & Hst). simpl in Hst. simpl. tauto.
Qed.

Lemma scanned_token_opens_the_session_witness :
  order_keys Fixture.empty /\
  exists r w',
    QRService.handleQRScan Fixture.clk "aa" "cairo-grill-T5-00ff" None None
      Fixture.empty = (Return (Success r), w') /\
    exists tableNumber,
      QRService.validateGuestSession "aa" w'
      = (Return (Success (QRService.mkGuestValidation 1 "Guest 1" 1
                            "ORD-20250119-1-001" pending tableNumber)), w').
Proof.
  assert (Hk : order_keys Fixture.empty)
    by (split; [constructor | intros o []]).
  split; [exact Hk|].
  evaluated (QRService.handleQRScan Fixture.clk "aa" "cairo-grill-T5-00ff"
               None None Fixture.empty) Hrun.
  match type of Hrun with
  | _ = (Return (Success ?r), ?w') => exists r, w'
  end.
  split; [exact Hrun|].
  destruct (scanned_token_opens_the_session _ _ _ _ _ _ _ _ Hk Hrun)
    as (_ & tableNumber & Hv).
  exists tableNumber. exact Hv.
Defined.

Lemma createGuestSession_frame randomHex orderId guestName deviceInfo w :
  let w' := snd (QRService.createGuestSession randomHex orderId guestName
                   deviceInfo w) in
  orders w' = orders w /\ tables w' = tables w /\
  restaurants w' = restaurants w /\ emitted w' = emitted w /\
  orders_seq w' = orders_seq w.
Proof.
  cbv zeta. rewrite createGuestSession_cases. cbv zeta.
  unfold OrderGuest_create.
  destruct (existsb _ (order_guests w)); repeat split; reflexivity.
Qed.

Lemma createGuestSession_Raise randomHex orderId guestName deviceInfo w e w' :
  QRService.createGuestSession randomHex orderId guestName deviceInfo w
  = (Raise e, w') -> exists m, e = Thrown m.
Proof.
  rewrite createGuestSession_cases. cbv zeta. unfold OrderGuest_create.
  destruct (existsb _ (order_guests w)); intros H; [|discriminate H].
  injection H as <- _. eexists. reflexivity.
Qed.

Lemma getOrCreateTableSession_frame clk tableId restaurantId w :
  let result := QRService.getOrCreateTableSession clk tableId restaurantId w in
  let w1 := snd result in
  restaurants w1 = restaurants w /\ order_guests w1 = order_guests w /\
  emitted w1 = emitted w /\
  (exists f, tables w1 = map f (tables w) /\
             forall t, Table.table_id (f t) = Table.table_id t /\
                       Table.restaurant_id (f t) = Table.restaurant_id t /\
                       Table.qr_code (f t) = Table.qr_code t) /\
  (forall e, fst result = Raise e ->
             e = Thrown "SequelizeUniqueConstraintError: order_number" /\
             orders w1 = orders w /\ tables w1 = tables w /\
             orders_seq w1 = S (orders_seq w)) /\
  (forall s, fst result = Return s ->
             exists o, QRService.findActiveOrder tableId restaurantId w1 = Some o /\
                       s = QRService.sessionOf o).
Proof.
  cbv zeta. rewrite getOrCreateTableSession_cases.
  destruct (QRService.findActiveOrder tableId restaurantId w) as [o|] eqn:E.
  - cbn [fst snd]. repeat (split; [reflexivity|]).
    split.
    { exists (fun t => t). split; [symmetry; apply map_id|].
      intros t. repeat split; reflexivity. }
    split; [intros e H; discriminate H|].
    intros s H. injection H as <-. exists o. split; [exact E | reflexivity].
  - cbv zeta. unfold Order_create.
    destruct (existsb _ (orders w)) eqn:Ex; cbn [fst snd].
    + repeat (split; [reflexivity|]).
      split.
      { exists (fun t => t). split; [symmetry; apply map_id|].
        intros t. repeat split; reflexivity. }
      split; [|intros s H; discriminate H].
      intros e H. injection H as <-. repeat split; reflexivity.
    + repeat (split; [reflexivity|]).
      split.
      { eexists. split; [reflexivity|]. intros t. cbv beta.
        destruct (Nat.eqb (Table.table_id t) tableId); repeat split; reflexivity. }
      split; [intros e H; discriminate H|].
      intros s H. injection H as <-.
      exists (fresh_order clk tableId restaurantId w).
      split; [|reflexivity].
      unfold QRService.findActiveOrder in *. cbn [orders with_tables with_orders snd
        Table_update_status modify].
      rewrite filter_app. apply Scans.most_recent_None in E. rewrite E.
      cbn [app filter]. unfold fresh_order at 1 2 3.
      cbn [Order.table_id Order.restaurant_id Order.status status_name].
      rewrite !Nat.eqb_refl. reflexivity.
Qed.

Lemma findActiveOrder_ext tableId restaurantId w w' :
  orders w = orders w' ->
  QRService.findActiveOrder tableId restaurantId w
  = QRService.findActiveOrder tableId restaurantId w'.
Proof. unfold QRService.findActiveOrder. intros ->. reflexivity. Qed.

(** X8.  Two successful scans of the same QR code, the second one started
    after the first has finished, are put on the same order, and the
    second scan leaves the orders as the first left them. *)
Theorem scans_one_after_the_other_share_the_order :
  forall (clk clk' : Clock) (hex1 hex2 qrToken : string)
         (name1 name2 device1 device2 : option string)
         (w w1 w2 : World) (r1 r2 : QRService.ScanResult),
    QRService.handleQRScan clk hex1 qrToken name1 device1 w
    = (Return (Success r1), w1) ->
    QRService.handleQRScan clk' hex2 qrToken name2 device2 w1
    = (Return (Success r2), w2) ->
    QRService.scan_order r2 = QRService.scan_order r1 /\
    orders w2 = orders w1.
Proof.
  intros clk clk' h1 h2 qr n1 n2 d1 d2 w w1 w2 r1 r2 H1 H2.
  apply handleQRScan_Success in H1. destruct H1 as (wa & wb & Hv1 & Hs1 & Hg1 & ->).
  apply handleQRScan_Success in H2. destruct H2 as (wc & wd & Hv2 & Hs2 & Hg2 & ->).
  destruct r1 as [v1 s1 g1], r2 as [v2 s2 g2].
  cbn [QRService.scan_table QRService.scan_order QRService.scan_guest] in *.
  set (w1 := snd (QRService.trackQRScan (QRService.tableId v1) wb)) in *.
  (* what the first scan left *)
  pose proof (getOrCreateTableSession_frame clk (QRService.tableId v1)
                (QRService.restaurantId v1) w) as Hfr.
  cbv zeta in Hfr. rewrite Hs1 in Hfr. cbn [fst snd] in Hfr.
  destruct Hfr as (Hr & _ & _ & (f & Htabs & Hf) & _ & Hact).
  destruct (Hact s1 eq_refl) as (o & Ho & ->). clear Hact.
  pose proof (createGuestSession_frame h1 (QRService.orderId (QRService.sessionOf o))
                n1 d1 wa) as Hgf.
  cbv zeta in Hgf. rewrite Hg1 in Hgf. cbn [snd] in Hgf.
  destruct Hgf as (Hob & Htb & Hrb & _).
  destruct (trackQRScan_frame (QRService.tableId v1) wb)
    as (Ho1 & Ht1 & _ & Hr1 & _).
  fold w1 in Ho1, Ht1, Hr1.
  (* the second scan reads the same table *)
  apply validateQRCode_Success in Hv1.
  destruct Hv1 as (_ & t1 & rr1 & Hft1 & Hfr1 & _ & _ & ->).
  apply validateQRCode_Success in Hv2.
  destruct Hv2 as (_ & t2 & rr2 & Hft2 & Hfr2 & _ & _ & ->).
  cbn [QRService.tableId QRService.restaurantId] in *.
  assert (Et : t2 = f t1).
  { unfold findTableByQR in Hft1, Hft2. rewrite Ht1, Htb, Htabs in Hft2.
    rewrite find_map_same in Hft2
      by (intros x; rewrite (proj2 (proj2 (Hf x))); reflexivity).
    rewrite Hft1 in Hft2. injection Hft2 as <-. reflexivity. }
  assert (Er1 : Restaurant.restaurant_id rr1 = Table.restaurant_id t1).
  { unfold findRestaurantByPk in Hfr1. apply find_some in Hfr1.
    apply Nat.eqb_eq. exact (proj2 Hfr1). }
  assert (Er2 : Restaurant.restaurant_id rr2 = Table.restaurant_id t2).
  { unfold findRestaurantByPk in Hfr2. apply find_some in Hfr2.
    apply Nat.eqb_eq. exact (proj2 Hfr2). }
  rewrite Er1 in *. rewrite Er2 in *. subst t2.
  rewrite (proj1 (Hf t1)) in Hs2.
  rewrite (proj1 (proj2 (Hf t1))) in Hs2.
  (* so it finds the order of the first *)
  rewrite getOrCreateTableSession_cases in Hs2.
  rewrite (findActiveOrder_ext _ _ w1 wa) in Hs2 by (rewrite Ho1, Hob; reflexivity).
  rewrite Ho in Hs2. injection Hs2 as <- <-.
  split; [reflexivity|].
  pose proof (createGuestSession_frame h2
                (QRService.orderId (QRService.sessionOf o)) n2 d2 w1) as Hgf2.
  cbv zeta in Hgf2. rewrite Hg2 in Hgf2. cbn [snd] in Hgf2.
  destruct (trackQRScan_frame (Table.table_id (f t1)) wd) as (Ho2 & _).
  rewrite Ho2. exact (proj1 Hgf2).
Qed.

Lemma scans_one_after_the_other_share_the_order_witness :
  exists r1 w1 r2 w2,
    QRService.handleQRScan Fixture.clk "aa" "cairo-grill-T5-00ff" None None
      Fixture.empty = (Return (Success r1), w1) /\
    QRService.handleQRScan Fixture.clk "bb" "cairo-grill-T5-00ff" None None w1
    = (Return (Success r2), w2) /\
    QRService.scan_order r2 = QRService.scan_order r1 /\
    orders w2 = orders w1.
Proof.
  evaluated (QRService.handleQRScan Fixture.clk "aa" "cairo-grill-T5-00ff"
               None None Fixture.empty) Hrun1.
  match type of Hrun1 with
  | _ = (Return (Success ?r1), ?w1) =>
      evaluated (QRService.handleQRScan Fixture.clk "bb" "cairo-grill-T5-00ff"
                   None None w1) Hrun2;
      match type of Hrun2 with
      | _ = (Return (Success ?r2), ?w2) => exists r1, w1, r2, w2
      end
  end.
  split; [exact Hrun1|]. split; [exact Hrun2|].
  exact (scans_one_after_the_other_share_the_order _ _ _ _ _ _ _ _ _ _ _ _ _ _
           Hrun1 Hrun2).
Defined.

Lemma handleQRScan_outcomes clk randomHex qrToken guestName deviceInfo w :
  let result :=
    QRService.handleQRScan clk randomHex qrToken guestName deviceInfo w in
  emitted (snd result) = emitted w /\
  (forall e, fst result = Return (Failure e) ->
     snd result = w /\
     In e ["Invalid QR code"; "Restaurant is currently inactive";
           "Table is under maintenance"]) /\
  (forall e, fst result = Raise e -> exists m, e = Thrown m).
Proof.
  cbv zeta. rewrite handleQRScan_cases.
  pose proof (validateQRCode_cases qrToken w) as Hv.
  destruct (QRService.validateQRCode qrToken w) as [[[v|e]|e] w0] eqn:E.
  - pose proof (getOrCreateTableSession_frame clk (QRService.tableId v)
                  (QRService.restaurantId v) w) as Hfr.
    cbv zeta in Hfr.
    destruct (QRService.getOrCreateTableSession _ _ _ w) as [[s|e] w1] eqn:Es;
      cbn [fst snd] in Hfr;
      destruct Hfr as (_ & _ & He1 & _ & Hraise & _).
    + pose proof (createGuestSession_frame randomHex (QRService.orderId s)
                    guestName deviceInfo w1) as Hgf.
      cbv zeta in Hgf.
      destruct (QRService.createGuestSession _ _ _ _ w1) as [[gs|e] w2] eqn:Eg;
        cbn [fst snd] in *; destruct Hgf as (_ & _ & _ & He2 & _).
      * split; [exact (eq_trans He2 He1)|]. split; intros e H; discriminate H.
      * split; [exact (eq_trans He2 He1)|]. split; [intros e' H; discriminate H|].
        intros e' H. injection H as <-.
        exact (createGuestSession_Raise _ _ _ _ _ _ _ Eg).
    + cbn [fst snd]. split; [exact He1|].
      split; [intros e' H; discriminate H|].
      intros e' H. injection H as <-.
      destruct (Hraise e eq_refl) as (-> & _). eexists. reflexivity.
  - cbn [fst snd]. split; [reflexivity|].
    split; [|intros e' H; discriminate H].
    intros e' H. injection H as <-. split; [reflexivity|].
    destruct (findTableByQR qrToken w) as [t|].
    + destruct (findRestaurantByPk (Table.restaurant_id t) w) as [r|];
        [|discriminate Hv].
      destruct (negb (Restaurant.is_active r)).
      * injection Hv as <- _. simpl. tauto.
      * destruct (TableStatus_eqb (Table.status t) maintenance);
          [|discriminate Hv].
        injection Hv as <- _. simpl. tauto.
    + injection Hv as <- _. simpl. tauto.
  - cbn [fst snd]. split; [reflexivity|].
    split; [intros e' H; discriminate H|].
    intros e' H. injection H as <-.
    destruct (findTableByQR qrToken w) as [t|]; [|discriminate Hv].
    destruct (findRestaurantByPk (Table.restaurant_id t) w) as [r|].
    + destruct (negb (Restaurant.is_active r)); [discriminate Hv|].
      destruct (TableStatus_eqb (Table.status t) maintenance); discriminate Hv.
    + injection Hv as -> _. eexists. reflexivity.
Qed.

(** X9.  When POST /api/orders/scan answers with an operational error,
    its status code is 400, its message is one of "QR token is required",
    "Invalid QR code", "Restaurant is currently inactive" and
    "Table is under maintenance", and neither the database nor the
    emitted events have changed: not even the scan counter is written. *)
Theorem refused_scan_changes_nothing :
  forall (clk : Clock) (randomHex qrToken : string)
         (guestName deviceInfo userAgent : option string) (w w' : World)
         (message : string) (statusCode : nat),
    ScanController.scanQRAndJoin clk randomHex qrToken guestName deviceInfo
      userAgent w = (Raise (AppError message statusCode), w') ->
    statusCode = 400%nat /\ w' = w /\
    In message ["QR token is required"; "Invalid QR code";
                "Restaurant is currently inactive"; "Table is under maintenance"].
Proof.
  intros clk hex qr name dev ua w w' m c H.
  unfold ScanController.scanQRAndJoin in H.
  destruct (String.eqb qr "").
  - unfold raise, ErrorTypes.BadRequest in H. injection H as <- <- <-.
    simpl. tauto.
  - unfold bind in H.
    pose proof (handleQRScan_outcomes clk hex qr name
                  (ScanController.orElse dev ua) w) as Ho.
    cbv zeta in Ho.
    destruct (QRService.handleQRScan _ _ _ _ _ w) as [[[r|e]|e] w1];
      cbn [fst snd] in Ho; destruct Ho as (_ & Hfail & Hraise).
    + unfold emit, modify, ret in H. discriminate H.
    + unfold raise in H. injection H as <- <- <-.
      destruct (Hfail e eq_refl) as (-> & Hin).
      split; [reflexivity|]. split; [reflexivity|]. right. exact Hin.
    + injection H as -> _. destruct (Hraise _ eq_refl) as (m' & Hm).
      discriminate Hm.
Qed.

Lemma refused_scan_changes_nothing_witness :
  ScanController.scanQRAndJoin Fixture.clk "aa" "no-such-code" None None None
    Fixture.twoGuests
  = (Raise (AppError "Invalid QR code" 400), Fixture.twoGuests) /\
  (400 = 400)%nat /\ Fixture.twoGuests = Fixture.twoGuests /\
  In "Invalid QR code"
     ["QR token is required"; "Invalid QR code";
      "Restaurant is currently inactive"; "Table is under maintenance"].
Proof.
  assert (Hrun : ScanController.scanQRAndJoin Fixture.clk "aa" "no-such-code"
                   None None None Fixture.twoGuests
                 = (Raise (AppError "Invalid QR code" 400), Fixture.twoGuests))
    by (vm_compute; reflexivity).
  split; [exact Hrun|].
  exact (refused_scan_changes_nothing _ _ _ _ _ _ _ _ _ _ Hrun).
Defined.

(** X10.  POST /api/orders/scan emits exactly one event when it succeeds,
    "guest-joined" to the room of the order the guest was put on, after
    everything emitted before; when it fails it emits nothing. *)
Theorem scanQRAndJoin_announces_the_guest :
  forall (clk : Clock) (randomHex qrToken : string)
         (guestName deviceInfo userAgent : option string) (w : World),
    let result := ScanController.scanQRAndJoin clk randomHex qrToken guestName
                    deviceInfo userAgent w in
    emitted (snd result)
    = (emitted w ++
       match fst result with
       | Return r =>
           [mkEmit (OrderController.orderRoom
                      (QRService.orderId (QRService.scan_order r)))
                   "guest-joined"]
       | Raise _ => []
       end)%list.
Proof.
  intros clk hex qr name dev ua w. cbv zeta.
  unfold ScanController.scanQRAndJoin.
  destruct (String.eqb qr ""); [cbn; rewrite app_nil_r; reflexivity|].
  unfold bind.
  pose proof (handleQRScan_outcomes clk hex qr name
                (ScanController.orElse dev ua) w) as Ho.
  cbv zeta in Ho.
  destruct (QRService.handleQRScan _ _ _ _ _ w) as [[[r|e]|e] w1];
    cbn [fst snd] in Ho; destruct Ho as (He & _).
  - cbn. rewrite He. reflexivity.
  - cbn. rewrite He, app_nil_r. reflexivity.
  - cbn. rewrite He, app_nil_r. reflexivity.
Qed.

(** X11.  [handleQRScan] keeps [order_id] a key: if the order ids are
    pairwise different and none is beyond the sequence, the same holds
    after the scan, whether it succeeds, is refused or throws. *)
Theorem scans_keep_the_order_keys :
  forall (clk : Clock) (randomHex qrToken : string)
         (guestName deviceInfo : option string) (w : World),
    order_keys w ->
    order_keys (snd (QRService.handleQRScan clk randomHex qrToken guestName
                       deviceInfo w)).
Proof.
  intros clk hex qr name dev w Hk. rewrite handleQRScan_cases.
  destruct (QRService.validateQRCode qr w) as [[[v|e]|e] w0]; try exact Hk.
  pose proof (getOrCreateTableSession_frame clk (QRService.tableId v)
                (QRService.restaurantId v) w) as Hfr.
  cbv zeta in Hfr.
  destruct (QRService.getOrCreateTableSession _ _ _ w) as [[s|e] w1] eqn:Es;
    cbn [fst snd] in Hfr.
  - apply (session_order_row _ _ _ _ _ _ Hk) in Es.
    destruct Es as (o & _ & _ & _ & _ & _ & _ & Hk1).
    pose proof (createGuestSession_frame hex (QRService.orderId s) name dev w1)
      as Hgf. cbv zeta in Hgf.
    destruct (QRService.createGuestSession _ _ _ _ w1) as [[gs|e] w2];
      cbn [fst snd] in *; destruct Hgf as (Ho & _ & _ & _ & Hq);
      unfold order_keys in *.
    + destruct (trackQRScan_frame (QRService.tableId v) w2)
        as (Ho3 & _ & _ & _ & _ & _ & _ & Hq3 & _).
      rewrite Ho3, Hq3, Ho, Hq. exact Hk1.
    + rewrite Ho, Hq. exact Hk1.
  - destruct Hfr as (_ & _ & _ & _ & Hraise & _).
    destruct (Hraise e eq_refl) as (_ & Ho & _ & Hq).
    destruct Hk as [Hnd Hseq]. cbn [snd]. unfold order_keys. rewrite Ho, Hq.
    split; [exact Hnd|]. intros x Hx. specialize (Hseq x Hx). lia.
Qed.

Lemma scans_keep_the_order_keys_witness :
  order_keys Fixture.empty /\ order_keys Fixture.twoGuests.
Proof.
  assert (Hk : order_keys Fixture.empty)
    by (split; [constructor | intros o []]).
  split; [exact Hk|].
  exact (scans_keep_the_order_keys Fixture.clk "bb" "cairo-grill-T5-00ff"
           None None _
           (scans_keep_the_order_keys Fixture.clk "aa" "cairo-grill-T5-00ff"
              None None _ Hk)).
Defined.

(* ===================================================================== *)
(** ** Amounts and totals *)
(* ===================================================================== *)

Local Open Scope Z_scope.

(** *** Decimals through Numbers and back *)






Local Open Scope string_scope.

(** *** The two recomputations of the totals *)









(** *** Submission *)



(** *** The bills of a split *)

Lemma setGuest_In e t x :
  In x (OrderService.setGuest e t) -> x = e \/ In x t.
Proof.
  induction t as [|a t IH]; simpl.
  - intros [<-|[]]. left. reflexivity.
  - destruct (Nat.eqb (OrderService.guestId a) (OrderService.guestId e)).
    + intros [<-|H]; [left; reflexivity | right; right; exact H].
    + destruct (Nat.ltb (OrderService.guestId e) (OrderService.guestId a)).
      * intros [<-|H]; [left; reflexivity | right; exact H].
      * intros [<-|H]; [right; left; reflexivity|].
        destruct (IH H) as [->|H']; [left; reflexivity | right; right; exact H'].
Qed.

(** Every entry of [guestTotals] carries the name of its guest's row. *)
Lemma groupByGuest_names w l : forall t t',
  (forall e, In e t ->
     exists g, OrderService.findGuestByPk (OrderService.guestId e) w = Some g /\
               OrderService.guestName e = OrderGuest.guest_name g) ->
  OrderService.groupByGuest w l t = Some t' ->
  forall e, In e t' ->
    exists g, OrderService.findGuestByPk (OrderService.guestId e) w = Some g /\
              OrderService.guestName e = OrderGuest.guest_name g.
Proof.
  induction l as [|item l IH]; intros t t' Hinv H.
  - injection H as <-. exact Hinv.
  - cbn [OrderService.groupByGuest] in H.
    destruct (OrderService.findGuestByPk (OrderItem.added_by_guest_id item) w)
      as [guest|] eqn:Eg; [|discriminate H].
    destruct (findMenuItemByPk (OrderItem.menu_item_id item) w) as [m|];
      [|discriminate H].
    refine (IH _ t' _ H).
    intros e He. unfold OrderService.addToGuest in He. cbv zeta in He.
    apply setGuest_In in He. destruct He as [->|He]; [|exact (Hinv e He)].
    cbn [OrderService.guestId OrderService.guestName].
    destruct (OrderService.lookupGuest (OrderItem.added_by_guest_id item) t)
      as [e0|] eqn:El.
    + apply BillSplit.lookupGuest_In in El. destruct El as [Hin _].
      exact (Hinv e0 Hin).
    + cbn [OrderService.guestId OrderService.guestName].
      exists guest. split; [exact Eg | reflexivity].
Qed.

(** X16.  [calculateBillSplit] reads only; the bills it returns are in
    strictly increasing order of guest id (the iteration order of the
    object that collects them), each bill bears the id and the name of a
    guest row, and [overallTotal] is the stored total of the order, not
    the sum of the bills. *)
Theorem bills_come_in_guest_order :
  forall (w w' : World) (orderId : nat) (split : OrderService.BillSplit),
    OrderService.calculateBillSplit orderId w = (Return split, w') ->
    w' = w /\
    OrderService.split_orderId split = orderId /\
    StronglySorted lt
      (map OrderService.bill_guestId (OrderService.guestBills split)) /\
    (forall b, In b (OrderService.guestBills split) ->
       exists g, In g (order_guests w) /\
                 OrderGuest.guest_id g = OrderService.bill_guestId b /\
                 OrderGuest.guest_name g = OrderService.bill_guestName b) /\
    exists o, findOrderByPk orderId w = Some o /\
              OrderService.overallTotal split
              = parseFloat (Order.total_amount o).
Proof.
  intros w w' orderId split H.
  unfold OrderService.calculateBillSplit, bind, gets, raise, ret in H.
  destruct (findOrderByPk orderId w) as [o|] eqn:Ho; [|discriminate H].
  destruct (OrderService.groupByGuest w (items_of orderId w) []) as [t|] eqn:Hgr;
    [|discriminate H].
  destruct (findRestaurantByPk (Order.restaurant_id o) w) as [r|];
    [|discriminate H].
  injection H as <- <-.
  cbn [OrderService.split_orderId OrderService.guestBills
       OrderService.overallTotal].
  split; [reflexivity|]. split; [reflexivity|].
  pose proof (BillSplit.groupByGuest_grouped w _ [] [] t (BillSplit.grouped_nil w) Hgr)
    as [Hs _].
  split.
  { rewrite map_map. exact Hs. }
  split.
  { intros b Hb. apply in_map_iff in Hb. destruct Hb as (e & <- & He).
    destruct (groupByGuest_names w _ [] t (fun e H => match H with end) Hgr e He)
      as (g & Hg & Hn).
    unfold OrderService.findGuestByPk in Hg. apply find_some in Hg.
    destruct Hg as [Hin Hid]. apply Nat.eqb_eq in Hid.
    exists g. cbn [OrderService.finishGuest OrderService.bill_guestId
                  OrderService.bill_guestName].
    split; [exact Hin|]. split; [exact Hid | symmetry; exact Hn]. }
  exists o. split; reflexivity.
Qed.

Lemma bills_come_in_guest_order_witness :
  let w := Fixture.ordered in
  exists split,
    OrderService.calculateBillSplit 1 w = (Return split, w) /\
    map (fun b => (OrderService.bill_guestId b, OrderService.bill_guestName b))
        (OrderService.guestBills split)
    = [(1%nat, "Guest 1"); (2%nat, "Guest 2")] /\
    StronglySorted lt
      (map OrderService.bill_guestId (OrderService.guestBills split)).
Proof.
  intro w.
  evaluated (OrderService.calculateBillSplit 1 w) Hrun.
  match type of Hrun with
  | _ = (Return ?split, ?w') =>
      destruct (bills_come_in_guest_order w w' 1 split Hrun)
        as (Hw & _ & Hsorted & _);
      exists split
  end.
  split; [rewrite Hrun; vm_compute; reflexivity|].
  split; [reflexivity | exact Hsorted].
Defined.

Local Open Scope Z_scope.

(** *** Quantity times price *)






Local Open Scope string_scope.

(** *** The service's item methods and the handlers *)







(* ===================================================================== *)
(** ** Tables and staff *)
(* ===================================================================== *)

(** *** Tables *)

Lemma table_status_of_string_name s st :
  TableController.table_status_of_string s = Some st ->
  s = TableController.table_status_name st.
Proof.
  unfold TableController.table_status_of_string. intros H.
  apply find_some in H. destruct H as [_ H]. apply String.eqb_eq. exact H.
Qed.

Lemma updateTableStatus_cases restaurant_id id status w :
  TableController.updateTableStatus restaurant_id id status w
  = if String.eqb status ""
    then (Raise (ErrorTypes.BadRequest "Status is required"), w)
    else
      match TableController.table_status_of_string status with
      | None => (Raise (ErrorTypes.BadRequest "Invalid status value"), w)
      | Some st =>
          match filter (TableController.selected id restaurant_id) (tables w) with
          | [] => (Raise (ErrorTypes.NotFound "Table"), w)
          | table :: _ =>
              (Return (Table.set_status st table),
               with_tables
                 (map (fun t => if TableController.selected id restaurant_id t
                                then Table.set_status st t else t)) w)
          end
      end.
Proof.
  unfold TableController.updateTableStatus.
  destruct (String.eqb status "") eqn:E0; [reflexivity|].
  destruct (TableController.table_status_of_string status) as [st|] eqn:Est.
  - apply table_status_of_string_name in Est. subst status.
    assert (Hinc : includes TableController.validStatuses
                     (TableController.table_status_name st) = true)
      by (destruct st; reflexivity).
    rewrite Hinc. cbn [negb].
    unfold bind, gets, modify, ret, raise.
    destruct (filter _ (tables w)); reflexivity.
  - assert (Hinc : includes TableController.validStatuses status = false).
    { unfold TableController.table_status_of_string in Est.
      unfold includes, TableController.validStatuses.
      apply not_true_iff_false. intros H. apply existsb_exists in H.
      destruct H as (x & Hx & Hex). apply String.eqb_eq in Hex. subst x.
      simpl in Hx.
      destruct Hx as [<-|[<-|[<-|[<-|[]]]]]; discriminate Est. }
    rewrite Hinc. reflexivity.
Qed.

(** X19.  PATCH /api/admin/tables/:id/status writes nothing but the
    status column of the tables with that id in the restaurant of the
    user: orders, guests, items, restaurants and menu stay, the tables of
    every other restaurant stay, a refused request changes nothing at
    all, and an accepted one returns a table of that id and restaurant
    in the requested status. *)
Theorem updateTableStatus_touches_one_column_of_one_restaurant :
  forall (restaurant_id id : nat) (status : string) (w : World),
    let result := TableController.updateTableStatus restaurant_id id status w in
    let w' := snd result in
    (orders w' = orders w /\ order_guests w' = order_guests w /\
     order_items w' = order_items w /\ restaurants w' = restaurants w /\
     menu_items w' = menu_items w /\ emitted w' = emitted w) /\
    (forall t, In t (tables w) -> Table.restaurant_id t <> restaurant_id ->
               In t (tables w')) /\
    (forall e, fst result = Raise e -> w' = w) /\
    (forall table, fst result = Return table ->
       In table (tables w') /\
       Table.table_id table = id /\ Table.restaurant_id table = restaurant_id /\
       TableController.table_status_name (Table.status table) = status /\
       tables w'
       = map (fun t => if Nat.eqb (Table.table_id t) id
                          && Nat.eqb (Table.restaurant_id t) restaurant_id
                       then Table.set_status (Table.status table) t else t)
             (tables w)).
Proof.
  intros rid id status w. cbv zeta. rewrite updateTableStatus_cases.
  assert (Hrefused : forall e,
            (orders w = orders w /\ order_guests w = order_guests w /\
             order_items w = order_items w /\ restaurants w = restaurants w /\
             menu_items w = menu_items w /\ emitted w = emitted w) /\
            (forall t, In t (tables w) -> Table.restaurant_id t <> rid ->
                       In t (tables w)) /\
            (forall e', @Raise Table.t e = Raise e' -> w = w) /\
            (forall table, Raise e = Return table ->
               In table (tables w) /\
               Table.table_id table = id /\ Table.restaurant_id table = rid /\
               TableController.table_status_name (Table.status table) = status /\
               tables w
               = map (fun t => if Nat.eqb (Table.table_id t) id
                                  && Nat.eqb (Table.restaurant_id t) rid
                               then Table.set_status (Table.status table) t
                               else t)
                     (tables w))).
  { intros e. split; [repeat split; reflexivity|].
    split; [intros t Ht _; exact Ht|].
    split; [intros e' _; reflexivity|].
    intros table Hd. discriminate Hd. }
  destruct (String.eqb status ""); [apply Hrefused|].
  destruct (TableController.table_status_of_string status) as [st|] eqn:Est;
    [|apply Hrefused].
  destruct (filter (TableController.selected id rid) (tables w)) as [|t0 rest]
    eqn:Ef; [apply Hrefused|].
  clear Hrefused.
  cbn [fst snd]. split; [repeat split; reflexivity|].
  assert (H0 : In t0 (tables w) /\ TableController.selected id rid t0 = true).
  { apply filter_In. rewrite Ef. left. reflexivity. }
  destruct H0 as [Hin0 Hsel0].
  split.
  { intros t Ht Hr. cbn [tables with_tables]. apply in_map_iff. exists t.
    split; [|exact Ht].
    unfold TableController.selected.
    replace (Nat.eqb (Table.restaurant_id t) rid) with false
      by (symmetry; apply Nat.eqb_neq; exact Hr).
    rewrite andb_false_r. reflexivity. }
  split; [intros e H; discriminate H|].
  intros table H. injection H as <-.
  unfold TableController.selected in Hsel0. apply andb_true_iff in Hsel0.
  destruct Hsel0 as [Hid Hrid]. apply Nat.eqb_eq in Hid, Hrid.
  split.
  { cbn [tables with_tables]. apply in_map_iff. exists t0.
    split; [|exact Hin0].
    unfold TableController.selected. rewrite Hid, Hrid, !Nat.eqb_refl.
    reflexivity. }
  split; [exact Hid|]. split; [exact Hrid|].
  split.
  { cbn [Table.set_status Table.status]. symmetry.
    apply table_status_of_string_name. exact Est. }
  reflexivity.
Qed.

Lemma find_unique {A} (p : A -> bool) (l : list A) (x : A) :
  In x l -> p x = true ->
  (forall y, In y l -> p y = true -> y = x) ->
  find p l = Some x.
Proof.
  intros Hin Hp Huniq. destruct (find p l) as [y|] eqn:E.
  - apply find_some in E. destruct E as [Hy Hpy]. f_equal. exact (Huniq y Hy Hpy).
  - rewrite (find_none _ _ E x Hin) in Hp. discriminate Hp.
Qed.

Lemma NoDup_map_eq {A B} (f : A -> B) (l : list A) (x y : A) :
  NoDup (map f l) -> In x l -> In y l -> f x = f y -> x = y.
Proof.
  induction l as [|a l IH]; intros Hnd Hx Hy E; [contradiction|].
  simpl in Hnd. inversion Hnd as [|b bs Hnotin Hnd']; subst.
  destruct Hx as [<-|Hx], Hy as [<-|Hy].
  - reflexivity.
  - exfalso. apply Hnotin. rewrite E. apply in_map. exact Hy.
  - exfalso. apply Hnotin. rewrite <- E. apply in_map. exact Hx.
  - exact (IH Hnd' Hx Hy E).
Qed.

(** X20.  Where QR codes are unique, as the model declares, a table that
    the staff of an active restaurant has put under maintenance takes no
    guest: every scan of its QR code is refused with "Table is under
    maintenance" and writes nothing. *)
Theorem a_table_under_maintenance_takes_no_scan :
  forall (restaurant_id id : nat) (w w' : World) (table : Table.t)
         (restaurant : Restaurant.t) (clk : Clock) (randomHex : string)
         (guestName deviceInfo : option string),
    NoDup (map Table.qr_code (tables w)) ->
    TableController.updateTableStatus restaurant_id id "maintenance" w
    = (Return table, w') ->
    findRestaurantByPk restaurant_id w = Some restaurant ->
    Restaurant.is_active restaurant = true ->
    QRService.handleQRScan clk randomHex (Table.qr_code table) guestName
      deviceInfo w'
    = (Return (Failure "Table is under maintenance"), w').
Proof.
  intros rid id w w' table r clk hex name dev Hnd H Hr Ha.
  rewrite updateTableStatus_cases in H.
  change (TableController.table_status_of_string "maintenance")
    with (Some maintenance) in H.
  cbn [String.eqb Ascii.eqb Bool.eqb] in H.
  destruct (filter (TableController.selected id rid) (tables w)) as [|t0 rest]
    eqn:Ef; [discriminate H|].
  injection H as <- <-.
  assert (H0 : In t0 (tables w) /\ TableController.selected id rid t0 = true).
  { apply filter_In. rewrite Ef. left. reflexivity. }
  destruct H0 as [Hin0 Hsel0].
  unfold TableController.selected in Hsel0. apply andb_true_iff in Hsel0.
  destruct Hsel0 as [Hid Hrid]. apply Nat.eqb_eq in Hid, Hrid.
  set (f := fun t => if TableController.selected id rid t
                     then Table.set_status maintenance t else t).
  assert (Hq : forall t, Table.qr_code (f t) = Table.qr_code t).
  { intros t. unfold f. destruct (TableController.selected id rid t); reflexivity. }
  rewrite handleQRScan_cases, validateQRCode_cases.
  assert (Hft : findTableByQR (Table.qr_code (Table.set_status maintenance t0))
                  (with_tables (map f) w)
                = Some (Table.set_status maintenance t0)).
  { unfold findTableByQR. cbn [tables with_tables].
    rewrite find_map_same by (intros x; rewrite Hq; reflexivity).
    rewrite (find_unique _ (tables w) t0 Hin0).
    - cbn [option_map]. unfold f, TableController.selected.
      rewrite Hid, Hrid, !Nat.eqb_refl. reflexivity.
    - apply String.eqb_eq. reflexivity.
    - intros y Hy Hp. apply String.eqb_eq in Hp.
      apply (NoDup_map_eq Table.qr_code (tables w)); assumption. }
  rewrite Hft.
  cbn [Table.set_status Table.restaurant_id Table.status TableStatus_eqb].
  rewrite Hrid.
  change (findRestaurantByPk rid (with_tables (map f) w))
    with (findRestaurantByPk rid w).
  rewrite Hr, Ha. reflexivity.
Qed.

Lemma a_table_under_maintenance_takes_no_scan_witness :
  let w := Fixture.twoGuests in
  NoDup (map Table.qr_code (tables w)) /\
  exists table w',
    TableController.updateTableStatus 1 5 "maintenance" w = (Return table, w') /\
    Table.qr_code table = "cairo-grill-T5-00ff" /\
    QRService.handleQRScan Fixture.clk "cc" "cairo-grill-T5-00ff" None None w'
    = (Return (Failure "Table is under maintenance"), w').
Proof.
  intro w.
  assert (Hnd : NoDup (map Table.qr_code (tables w))).
  { vm_compute. constructor; [intros [] | constructor]. }
  split; [exact Hnd|].
  evaluated (TableController.updateTableStatus 1 5 "maintenance" w) Hrun.
  match type of Hrun with
  | _ = (Return ?table, ?w') => exists table, w'
  end.
  split; [exact Hrun|]. split; [reflexivity|].
  exact (a_table_under_maintenance_takes_no_scan 1 5 w _ _ Fixture.cairoGrill
           Fixture.clk "cc" None None Hnd Hrun
           ltac:(vm_compute; reflexivity) eq_refl).
Defined.

Lemma find_head_of_filter {A} (p : A -> bool) (l : list A) :
  find p l = hd_error (filter p l).
Proof.
  induction l as [|a l IH]; [reflexivity|].
  simpl. destruct (p a); [reflexivity | exact IH].
Qed.

Lemma joinByQR_head qrCode w table restaurant :
  findTableByQR qrCode w = Some table ->
  findRestaurantByPk (Table.restaurant_id table) w = Some restaurant ->
  Restaurant.is_active restaurant = true ->
  exists rest, TableController.joinByQR qrCode w = (table, restaurant) :: rest.
Proof.
  intros Ht Hr Ha. unfold TableController.joinByQR.
  unfold findTableByQR in Ht. rewrite find_head_of_filter in Ht.
  destruct (filter (fun t => String.eqb (Table.qr_code t) qrCode) (tables w))
    as [|t ts]; [discriminate Ht|].
  injection Ht as ->. cbn [flat_map].
  assert (Hhead : exists rs,
            filter (fun r => Nat.eqb (Restaurant.restaurant_id r)
                                     (Table.restaurant_id table)
                             && Restaurant.is_active r) (restaurants w)
            = restaurant :: rs).
  { unfold findRestaurantByPk in Hr. clear - Hr Ha.
    induction (restaurants w) as [|a l IH]; [discriminate Hr|].
    simpl in Hr. simpl.
    destruct (Nat.eqb (Restaurant.restaurant_id a) (Table.restaurant_id table)).
    - injection Hr as ->. rewrite Ha. simpl. eexists. reflexivity.
    - simpl. exact (IH Hr). }
  destruct Hhead as (rs & ->). cbn [map app]. eexists. reflexivity.
Qed.

(** X21.  The customer's lookup GET /api/tables/qr/:qrCode and the scan
    agree about a QR code: what [validateQRCode] accepts, [getTableByQR]
    returns, with the same table and restaurant; and where QR codes
    and restaurant ids are unique, what [getTableByQR] returns,
    [validateQRCode] accepts. *)
Theorem getTableByQR_agrees_with_validateQRCode :
  forall (qrCode : string) (w : World),
    (forall v, QRService.validateQRCode qrCode w = (Return (Success v), w) ->
       TableController.getTableByQR qrCode w
       = (Return (TableController.mkTableByQR
                    (QRService.tableId v) (QRService.tableNumber v)
                    (QRService.tableStatus v) (QRService.restaurantId v)
                    (QRService.restaurantName v)), w))
    /\
    (NoDup (map Table.qr_code (tables w)) ->
     NoDup (map Restaurant.restaurant_id (restaurants w)) ->
     forall r, TableController.getTableByQR qrCode w = (Return r, w) ->
       QRService.validateQRCode qrCode w
       = (Return (Success (QRService.mkQRValidation
                             (TableController.q_table_id r)
                             (TableController.q_table_number r)
                             (TableController.q_status r)
                             (TableController.q_restaurant_id r)
                             (TableController.q_restaurant_name r))), w)).
Proof.
  intros qr w. split.
  - intros v Hv. apply validateQRCode_Success in Hv.
    destruct Hv as (_ & t & r & Ht & Hr & Ha & Hm & ->).
    destruct (joinByQR_head qr w t r Ht Hr Ha) as (rest & Hj).
    unfold TableController.getTableByQR, bind, gets, ret, raise. rewrite Hj.
    replace (TableStatus_eqb (Table.status t) maintenance) with false.
    + reflexivity.
    + symmetry. apply not_true_iff_false. intros E.
      apply TableStatus_eqb_eq in E. exact (Hm E).
  - intros Hndt Hndr r H.
    unfold TableController.getTableByQR, bind, gets, ret, raise in H.
    destruct (TableController.joinByQR qr w) as [|[t rr] rest] eqn:Hj;
      [discriminate H|].
    destruct (TableStatus_eqb (Table.status t) maintenance) eqn:Hm;
      [discriminate H|].
    injection H as <-.
    cbn [TableController.q_table_id TableController.q_table_number
         TableController.q_status TableController.q_restaurant_id
         TableController.q_restaurant_name].
    assert (Hin : In (t, rr) (TableController.joinByQR qr w))
      by (rewrite Hj; left; reflexivity).
    unfold TableController.joinByQR in Hin. apply in_flat_map in Hin.
    destruct Hin as (t' & Ht' & Hin). apply in_map_iff in Hin.
    destruct Hin as (r' & E & Hr'). injection E as -> ->.
    apply filter_In in Ht'. destruct Ht' as [Htin Hq].
    apply filter_In in Hr'. destruct Hr' as [Hrin Hra].
    apply andb_true_iff in Hra. destruct Hra as [Hrid Hact].
    rewrite validateQRCode_cases.
    unfold findTableByQR.
    rewrite (find_unique (fun x => String.eqb (Table.qr_code x) qr)
               (tables w) t Htin Hq)
      by (intros y Hy Hp; apply String.eqb_eq in Hp, Hq;
          apply (NoDup_map_eq Table.qr_code (tables w)); congruence).
    unfold findRestaurantByPk.
    rewrite (find_unique (fun x => Nat.eqb (Restaurant.restaurant_id x)
                                          (Table.restaurant_id t))
               (restaurants w) rr Hrin Hrid)
      by (intros y Hy Hp; apply Nat.eqb_eq in Hp, Hrid;
          apply (NoDup_map_eq Restaurant.restaurant_id (restaurants w));
          congruence).
    rewrite Hact, Hm. reflexivity.
Qed.

(** *** Staff updates and the guests' sessions *)




(** X23.  A status update reaches only the orders of the restaurant of
    the staff member: for an order id that no order of their restaurant
    bears, the HTTP request and the socket event fail and change
    nothing, whatever the status asked for; and so does the socket event
    of a socket that has joined no kitchen. *)
Theorem staff_cannot_update_an_order_of_another_restaurant :
  forall (w : World) (oid : nat) (status : string),
    (exists m, KitchenHandlers.updateOrderStatus None oid status w
               = (Failure m, w))
    /\
    forall rid,
      (forall o, In o (orders w) -> Order.order_id o = oid ->
                 Order.restaurant_id o <> rid) ->
      (exists e, OrderController.updateOrderStatus rid oid status w = (Raise e, w))
      /\ (exists m, KitchenHandlers.updateOrderStatus (Some rid) oid status w
                    = (Failure m, w)).
Proof.
  intros w oid status. split.
  { unfold KitchenHandlers.updateOrderStatus, KitchenHandlers.updateOrderStatusBody.
    destruct (Nat.eqb oid 0 || String.eqb status ""); [eexists; reflexivity|].
    destruct (negb (includes KitchenHandlers.validStatuses status));
      eexists; reflexivity. }
  intros rid Hforeign.
  assert (Hnone : OrderController.findOrderOfRestaurant oid rid w = None).
  { unfold OrderController.findOrderOfRestaurant.
    destruct (find _ (orders w)) as [o|] eqn:E; [|reflexivity].
    apply find_some in E. destruct E as [Hin Hp].
    apply andb_true_iff in Hp. destruct Hp as [Hid Hrid].
    apply Nat.eqb_eq in Hid, Hrid. exfalso. exact (Hforeign o Hin Hid Hrid). }
  split.
  - unfold OrderController.updateOrderStatus.
    destruct (String.eqb status ""); [eexists; reflexivity|].
    destruct (negb (includes OrderController.validStatuses status));
      [eexists; reflexivity|].
    unfold bind, gets, raise. rewrite Hnone. eexists. reflexivity.
  - unfold KitchenHandlers.updateOrderStatus, KitchenHandlers.updateOrderStatusBody.
    destruct (Nat.eqb oid 0 || String.eqb status ""); [eexists; reflexivity|].
    destruct (negb (includes KitchenHandlers.validStatuses status));
      [eexists; reflexivity|].
    unfold bind, gets, ret. rewrite Hnone. eexists. reflexivity.
Qed.

(* ===================================================================== *)
(** ** Sessions and writes *)
(* ===================================================================== *)

(** *** Recomputing twice *)




(** *** Without a session *)

(** X25.  Without an accepted session nothing is written: when the
    session token is refused, [addItemToOrder], [updateOrderItem],
    [removeOrderItem] and [submitOrder] all fail, whatever their other
    arguments, and leave the database and the emitted events as they
    were. *)
Theorem no_session_no_write :
  forall (w : World) (sessionToken : string),
    (forall v w', OrderController.withSession sessionToken w <> (Return v, w')) ->
    (forall menuItemId quantity specialInstructions,
       exists e, OrderController.addItemToOrder sessionToken menuItemId quantity
                   specialInstructions w = (Raise e, w))
    /\ (forall itemId quantity,
          exists e, OrderController.updateOrderItem itemId sessionToken quantity w
                    = (Raise e, w))
    /\ (forall itemId,
          exists e, OrderController.removeOrderItem itemId sessionToken w
                    = (Raise e, w))
    /\ (forall orderId specialInstructions,
          exists e, OrderController.submitOrder orderId sessionToken
                      specialInstructions w = (Raise e, w)).
Proof.
  intros w tok Hno.
  assert (Hs : exists e, OrderController.withSession tok w = (Raise e, w)).
  { destruct (OrderController.withSession tok w) as [[v|e] w'] eqn:E.
    - exfalso. exact (Hno v w' eq_refl).
    - destruct (withSession_Raise _ _ _ _ E) as (-> & _). exists e. reflexivity. }
  destruct Hs as (e & Hs).
  split; [|split; [|split]].
  - intros mid q si. unfold OrderController.addItemToOrder.
    destruct (String.eqb tok "" || Nat.eqb mid 0 || (q =? 0)%Z);
      [eexists; reflexivity|].
    destruct (q <? 1)%Z; [eexists; reflexivity|].
    unfold bind at 1. rewrite Hs. eexists. reflexivity.
  - intros itemId q. unfold OrderController.updateOrderItem.
    destruct (String.eqb tok "" || (q =? 0)%Z); [eexists; reflexivity|].
    destruct (q <? 1)%Z; [eexists; reflexivity|].
    unfold bind at 1. rewrite Hs. eexists. reflexivity.
  - intros itemId. unfold OrderController.removeOrderItem.
    destruct (String.eqb tok ""); [eexists; reflexivity|].
    unfold bind at 1. rewrite Hs. eexists. reflexivity.
  - intros orderId si. unfold OrderController.submitOrder.
    unfold bind at 1. rewrite Hs. eexists. reflexivity.
Qed.

Lemma no_session_no_write_witness :
  let w := Fixture.twoGuests in
  (forall v w', OrderController.withSession "zz" w <> (Return v, w')) /\
  exists e, OrderController.addItemToOrder "zz" 1 1 None w = (Raise e, w).
Proof.
  intro w.
  evaluated (OrderController.withSession "zz" w) Hs.
  assert (Hno : forall v w', OrderController.withSession "zz" w <> (Return v, w'))
    by (intros v w' H; rewrite Hs in H; discriminate H).
  split; [exact Hno|].
  exact (proj1 (no_session_no_write w "zz" Hno) 1%nat 1 None).
Defined.

Module JoinedScans.

Import Interleaving.

(** *** Two scans of a table that has its order *)




End JoinedScans.

(** *** One table's guests and the other tables' orders *)














(* ===================================================================== *)
(** ** The accuracy of the amounts *)
(* ===================================================================== *)

Local Open Scope Z_scope.

(** *** Products and quotients of Numbers *)











(** *** The four amounts of an order, with their errors *)







(** *** The four amounts in hundredths *)


(** *** What a recalculation stores *)





(** *** The bills against the total *)













Local Open Scope string_scope.

